(** * FinanceTracker: the data-access facade and its CSV export helper

    A shallow embedding of [src/lib/supabase.ts] and of the [budgets]
    migration, with the properties the specification states about them.

    Layout:
    - values, rows and the query builder of the backend client;
    - the requests a facade function sends to its environment, and the
      program monad [Prog] that sequences them the way [await] does;
    - the facade functions, one definition per exported function;
    - the backend: the declared schema, row-level security and the
      execution of one query against a database state;
    - the CSV export helper;
    - the theorems. *)

From Stdlib Require Import ZArith QArith String Ascii List Lia.
From Stdlib Require DecimalString.
From stdpp Require Import gmap strings list sorting.

Close Scope Q_scope.
Open Scope string_scope.
Open Scope Z_scope.

(* ===================================================================== *)
(** * Values and rows *)
(* ===================================================================== *)

(** A column value as the backend holds it.  Numbers are exact rationals
    (the JSON number on the wire), texts cover [text], [uuid] and [date]
    columns (ISO-8601 calendar dates order lexicographically), times are
    [timestamptz] columns in microseconds since the epoch. *)
Inductive Value :=
| VNull
| VNum (q : Q)
| VText (s : string)
| VTime (t : Z).

#[global] Instance Q_eq_dec : EqDecision Q.
Proof. solve_decision. Defined.
#[global] Instance Value_eq_dec : EqDecision Value.
Proof. solve_decision. Defined.

(** A row, and equally a JSON payload: a finite map from column names. *)
Abbreviation Row := (gmap string Value).

(** The backend's error object: a code and a message. *)
Record Error := { err_code : string; err_message : string }.

#[global] Instance Error_eq_dec : EqDecision Error.
Proof. solve_decision. Defined.

(** What a table request carries back in its [data] field. *)
Inductive Data :=
| DNull
| DRow (r : Row)
| DRows (rs : list Row).

(** The [{ data, error }] shape shared by the client's answers and the
    facade's results. *)
Record Reply (D : Type) := { data : D; error : option Error }.
Arguments data {D} _.
Arguments error {D} _.

(* ===================================================================== *)
(** * The query builder *)
(* ===================================================================== *)

Inductive Table := user_profiles | income | expenses | investments | savings | budgets.

#[global] Instance Table_eq_dec : EqDecision Table.
Proof. solve_decision. Defined.

Inductive Filter :=
| FEq (column : string) (value : Value)
| FGte (column : string) (value : Value).

(** ['*'] or an explicit column list. *)
Inductive Columns := AllColumns | Cols (cs : list string).

Inductive Verb :=
| VSelect (cols : Columns)
| VInsert (rows : list Row)
| VUpdate (values : Row)
| VDelete.

(** One request to the table API, as the builder chain describes it.
    [q_order] holds the column and the [ascending] flag; [q_returning] is
    the [.select()] that follows a mutation. *)
Record Query := {
  q_table : Table;
  q_verb : Verb;
  q_filters : list Filter;
  q_order : option (string * bool);
  q_returning : option Columns;
  q_single : bool
}.

Definition from (t : Table) : Table := t.

Definition start (v : Verb) (t : Table) : Query :=
  {| q_table := t; q_verb := v; q_filters := []; q_order := None;
     q_returning := None; q_single := false |}.

Definition select_ (cols : Columns) : Table -> Query := start (VSelect cols).
Definition insert_ (rows : list Row) : Table -> Query := start (VInsert rows).
Definition update_ (values : Row) : Table -> Query := start (VUpdate values).
Definition delete_ : Table -> Query := start VDelete.

Definition add_filter (f : Filter) (q : Query) : Query :=
  {| q_table := q_table q; q_verb := q_verb q;
     q_filters := q_filters q ++ [f]; q_order := q_order q;
     q_returning := q_returning q; q_single := q_single q |}.

Definition eq_ (column : string) (v : Value) : Query -> Query :=
  add_filter (FEq column v).
Definition gte_ (column : string) (v : Value) : Query -> Query :=
  add_filter (FGte column v).

Definition order_ (column : string) (ascending : bool) (q : Query) : Query :=
  {| q_table := q_table q; q_verb := q_verb q; q_filters := q_filters q;
     q_order := Some (column, ascending);
     q_returning := q_returning q; q_single := q_single q |}.

(** [.select()] after [insert] or [update]: return the written rows. *)
Definition returning_ (q : Query) : Query :=
  {| q_table := q_table q; q_verb := q_verb q; q_filters := q_filters q;
     q_order := q_order q;
     q_returning := Some AllColumns; q_single := q_single q |}.

Definition single_ (q : Query) : Query :=
  {| q_table := q_table q; q_verb := q_verb q; q_filters := q_filters q;
     q_order := q_order q;
     q_returning := q_returning q; q_single := true |}.

(** Method chaining: [x .> f .> g] is [g (f x)]. *)
Notation "x .> f" := (f x) (at level 45, left associativity, only parsing).

(* ===================================================================== *)
(** * JavaScript dates *)
(* ===================================================================== *)

(** A [Date] object: its time value (milliseconds since the epoch, UTC)
    and the host's offset of local time from UTC in milliseconds, taken
    constant (no daylight-saving change is modelled). *)
Record JsDate := { time_value : Z; local_tza : Z }.

Definition msPerDay : Z := 86400000.

Definition Day (t : Z) : Z := t / msPerDay.
Definition TimeWithinDay (t : Z) : Z := t mod msPerDay.

(** Proleptic Gregorian calendar; months are 0-based as in JavaScript. *)
Definition days_from_civil (y m d : Z) : Z :=
  let y' := if m <=? 1 then y - 1 else y in
  let era := y' / 400 in
  let yoe := y' - era * 400 in
  let mp := if 1 <? m then m - 2 else m + 10 in
  let doy := (153 * mp + 2) / 5 + d - 1 in
  let doe := yoe * 365 + yoe / 4 - yoe / 100 + doy in
  era * 146097 + doe - 719468.

Definition civil_from_days (z : Z) : Z * Z * Z :=
  let z' := z + 719468 in
  let era := z' / 146097 in
  let doe := z' mod 146097 in
  let yoe := (doe - doe / 1460 + doe / 36524 - doe / 146096) / 365 in
  let doy := doe - (365 * yoe + yoe / 4 - yoe / 100) in
  let mp := (5 * doy + 2) / 153 in
  let d := doy - (153 * mp + 2) / 5 + 1 in
  let m := if mp <? 10 then mp + 2 else mp - 10 in
  let y := yoe + era * 400 in
  (if m <=? 1 then y + 1 else y, m, d).

Definition YearFromTime (t : Z) : Z := fst (fst (civil_from_days (Day t))).
Definition MonthFromTime (t : Z) : Z := snd (fst (civil_from_days (Day t))).
Definition DateFromTime (t : Z) : Z := snd (civil_from_days (Day t)).

(** [MakeDay]: a month outside 0..11 carries into the year, a day past the
    end of the month carries into the following month. *)
Definition MakeDay (year month date : Z) : Z :=
  days_from_civil (year + month / 12) (month mod 12) 1 + date - 1.

Definition MakeDate (day time : Z) : Z := day * msPerDay + time.

Definition LocalTime (d : JsDate) : Z := time_value d + local_tza d.

Definition getMonth (d : JsDate) : Z := MonthFromTime (LocalTime d).

Definition setMonth (d : JsDate) (month : Z) : JsDate :=
  let t := LocalTime d in
  let newDate :=
    MakeDate (MakeDay (YearFromTime t) month (DateFromTime t)) (TimeWithinDay t) in
  {| time_value := newDate - local_tza d; local_tza := local_tza d |}.

Definition digit (z : Z) : ascii := ascii_of_nat (48 + Z.to_nat (z mod 10)).

(** The [width] low decimal digits of [z], zero-padded, in front of [acc]. *)
Fixpoint pad (width : nat) (z : Z) (acc : string) : string :=
  match width with
  | O => acc
  | S w => pad w (z / 10) (String (digit z) acc)
  end.

(** [YYYY-MM-DDTHH:mm:ss.sssZ] in UTC; years outside 0..9999 take the
    expanded form with a sign and six digits. *)
Definition toISOString (d : JsDate) : string :=
  let t := time_value d in
  let '(y, m, dd) := civil_from_days (Day t) in
  let ms := TimeWithinDay t in
  let year :=
    if (0 <=? y) && (y <=? 9999) then pad 4 y EmptyString
    else String (if 0 <=? y then "+"%char else "-"%char) (pad 6 (Z.abs y) EmptyString) in
  year ++ "-" ++ pad 2 (m + 1) EmptyString ++ "-" ++ pad 2 dd EmptyString ++ "T"
    ++ pad 2 (ms / 3600000) EmptyString ++ ":"
    ++ pad 2 (ms / 60000 mod 60) EmptyString ++ ":"
    ++ pad 2 (ms / 1000 mod 60) EmptyString ++ "."
    ++ pad 3 (ms mod 1000) EmptyString ++ "Z".

(** [s.split(c)[0]]: the part of [s] before the first [c]. *)
Fixpoint split_0 (c : ascii) (s : string) : string :=
  match s with
  | EmptyString => EmptyString
  | String a rest => if Ascii.eqb a c then EmptyString else String a (split_0 c rest)
  end.

(* ===================================================================== *)
(** * Requests to the environment and the program monad *)
(* ===================================================================== *)

Inductive UserType := freelancer | e_commerce.

(** The identity provider's payloads, reduced to what the facade passes on. *)
Record User := { user_uid : string; user_email : string }.
Record Session := { access_token : string; session_user : User }.
Record AuthData := { auth_user : option User; auth_session : option Session }.
Record OAuthData := { oauth_provider : string; oauth_url : option string }.
Record UserData := { user : option User }.

(** Handles of browser objects. *)
Definition Blob := nat.
Definition Element := nat.

(** Everything a function of [supabase.ts] asks of its environment: the
    clock, the page location, the identity provider, the table API and
    the DOM. *)
Inductive Request :=
| NewDate
| LocationOrigin
| AuthSignUp (email password name : string) (user_type : UserType)
             (emailRedirectTo : string)
| AuthSignInWithOAuth (provider redirectTo : string)
| AuthSignInWithPassword (email password : string)
| AuthSignOut
| AuthGetUser
| Rest (q : Query)
| NewBlob (parts : list string) (mime : string)
| CreateElement (tag : string)
| CreateObjectURL (blob : Blob)
| SetAttribute (el : Element) (name value : string)
| SetStyleVisibility (el : Element) (value : string)
| BodyAppendChild (el : Element)
| Click (el : Element)
| BodyRemoveChild (el : Element).

(** The type of what comes back for each request. *)
Definition answer (c : Request) : Type :=
  match c with
  | NewDate => JsDate
  | LocationOrigin => string
  | AuthSignUp _ _ _ _ _ => Reply AuthData
  | AuthSignInWithOAuth _ _ => Reply OAuthData
  | AuthSignInWithPassword _ _ => Reply AuthData
  | AuthSignOut => option Error
  | AuthGetUser => Reply UserData
  | Rest _ => Reply Data
  | NewBlob _ _ => Blob
  | CreateElement _ => Element
  | CreateObjectURL _ => string
  | SetAttribute _ _ _ => unit
  | SetStyleVisibility _ _ => unit
  | BodyAppendChild _ => unit
  | Click _ => unit
  | BodyRemoveChild _ => unit
  end.

(** A program either returns or sends one request and continues with its
    answer.  The continuation of [Do c k] runs only once [c] has been
    answered, which is how [await] sequences an [async] function. *)
Inductive Prog (R : Type) : Type :=
| Ret (r : R)
| Do (c : Request) (k : answer c -> Prog R).
Arguments Ret {R} r.
Arguments Do {R} c k.

Fixpoint bind {A B : Type} (p : Prog A) (f : A -> Prog B) : Prog B :=
  match p with
  | Ret a => f a
  | Do c k => Do c (fun x => bind (k x) f)
  end.

Definition call (c : Request) : Prog (answer c) := Do c Ret.

#[global] Instance Prog_ret : MRet Prog := @Ret.
#[global] Instance Prog_bind : MBind Prog := fun A B f p => bind p f.
#[global] Instance Prog_fmap : FMap Prog :=
  fun A B f p => bind p (fun a => Ret (f a)).

(** What an observer of the environment sees of a run: a request going
    out, and its answer coming back. *)
Inductive Obs :=
| Issued (c : Request)
| Settled (c : Request) (a : answer c).

(** [traces p tr r]: some environment answers the requests of [p] so that
    [p] shows the observations [tr] and returns [r]. *)
Fixpoint traces {R : Type} (p : Prog R) (tr : list Obs) (r : R) : Prop :=
  match p with
  | Ret r' => tr = [] /\ r = r'
  | Do c k => exists (a : answer c) (tr' : list Obs),
      tr = Issued c :: Settled c a :: tr' /\ traces (k a) tr' r
  end.

(** The tables whose requests were answered, in the order of the answers. *)
Definition settle_order (tr : list Obs) : list Table :=
  omap (fun o => match o with
                 | Settled (Rest q) _ => Some (q_table q)
                 | _ => None
                 end) tr.

(** An environment that answers every request. *)
Definition Handler := forall c : Request, answer c.

(** Run a program against an environment: the requests it issued, in
    order, and its result. *)
Fixpoint run {R : Type} (h : Handler) (p : Prog R) : list Request * R :=
  match p with
  | Ret r => ([], r)
  | Do c k => let '(log, r) := run h (k (h c)) in (c :: log, r)
  end.

(** An environment with state [S]. *)
Definition SHandler (S : Type) := forall c : Request, S -> S * answer c.

Fixpoint run_state {S R : Type} (h : SHandler S) (p : Prog R) (s : S) : S * R :=
  match p with
  | Ret r => (s, r)
  | Do c k => let '(s', a) := h c s in run_state h (k a) s'
  end.

(* ===================================================================== *)
(** * The facade: [src/lib/supabase.ts] *)
(* ===================================================================== *)

(** ** Database types: the fields of each interface *)

Definition UserProfile_fields : list string :=
  ["id"; "name"; "user_type"; "created_at"; "updated_at"].
Definition Income_fields : list string :=
  ["id"; "user_id"; "amount"; "source"; "date"; "category"; "notes";
   "created_at"; "updated_at"].
Definition Expense_fields : list string :=
  ["id"; "user_id"; "amount"; "vendor"; "date"; "category"; "notes";
   "created_at"; "updated_at"].
Definition Investment_fields : list string :=
  ["id"; "user_id"; "type"; "amount"; "date"; "platform"; "notes";
   "created_at"; "updated_at"].
Definition SavingsGoal_fields : list string :=
  ["id"; "user_id"; "goal_name"; "target_amount"; "deadline";
   "current_amount"; "notes"; "created_at"; "updated_at"].
Definition Budget_fields : list string :=
  ["id"; "user_id"; "category"; "budget_limit"; "start_date";
   "created_at"; "updated_at"].

(** The interface whose rows a table holds. *)
Definition fields_of (t : Table) : list string :=
  match t with
  | user_profiles => UserProfile_fields
  | income => Income_fields
  | expenses => Expense_fields
  | investments => Investment_fields
  | savings => SavingsGoal_fields
  | budgets => Budget_fields
  end.


(** [Omit<T, 'id' | 'created_at' | 'updated_at'>]: an object with every
    field of [T] but the three server-generated ones. *)
Definition is_new_record (t : Table) (r : Row) : Prop :=
  forall k, is_Some (r !! k) <->
    k ∈ fields_of t /\ k ∉ ["id"; "created_at"; "updated_at"].

(** ** Result shapes *)

Record ErrorOnly := { only_error : option Error }.
Record UserAndError := { cu_user : option User; cu_error : option Error }.
Record MonthlyData := {
  incomeData : Data;
  expenseData : Data;
  incomeError : option Error;
  expenseError : option Error
}.

(** ** Authentication functions *)

Definition signUp (email password name : string) (userType : UserType)
  : Prog (Reply AuthData) :=
  origin ← call LocationOrigin;
  r ← call (AuthSignUp email password name userType (origin ++ "/dashboard"));
  mret {| data := data r; error := error r |}.

Definition signInWithGoogle : Prog (Reply OAuthData) :=
  origin ← call LocationOrigin;
  r ← call (AuthSignInWithOAuth "google" (origin ++ "/dashboard"));
  mret {| data := data r; error := error r |}.

Definition signIn (email password : string) : Prog (Reply AuthData) :=
  r ← call (AuthSignInWithPassword email password);
  mret {| data := data r; error := error r |}.

Definition signOut : Prog ErrorOnly :=
  e ← call AuthSignOut;
  mret {| only_error := e |}.

Definition getCurrentUser : Prog UserAndError :=
  r ← call AuthGetUser;
  mret {| cu_user := user (data r); cu_error := error r |}.

(** ** User profile functions *)

Definition getUserProfile (userId : string) : Prog (Reply Data) :=
  r ← call (Rest (from user_profiles .> select_ AllColumns
                    .> eq_ "id" (VText userId) .> single_));
  mret {| data := data r; error := error r |}.

Definition updateUserProfile (userId : string) (updates : Row) : Prog (Reply Data) :=
  r ← call (Rest (from user_profiles .> update_ updates
                    .> eq_ "id" (VText userId) .> returning_ .> single_));
  mret {| data := data r; error := error r |}.

(** ** Income functions *)

Definition getIncome (userId : string) : Prog (Reply Data) :=
  r ← call (Rest (from income .> select_ AllColumns
                    .> eq_ "user_id" (VText userId) .> order_ "date" false));
  mret {| data := data r; error := error r |}.

Definition addIncome (income_ : Row) : Prog (Reply Data) :=
  r ← call (Rest (from income .> insert_ [income_] .> returning_ .> single_));
  mret {| data := data r; error := error r |}.

Definition updateIncome (id : string) (updates : Row) : Prog (Reply Data) :=
  r ← call (Rest (from income .> update_ updates
                    .> eq_ "id" (VText id) .> returning_ .> single_));
  mret {| data := data r; error := error r |}.

Definition deleteIncome (id : string) : Prog ErrorOnly :=
  r ← call (Rest (from income .> delete_ .> eq_ "id" (VText id)));
  mret {| only_error := error r |}.

(** ** Expense functions *)

Definition getExpenses (userId : string) : Prog (Reply Data) :=
  r ← call (Rest (from expenses .> select_ AllColumns
                    .> eq_ "user_id" (VText userId) .> order_ "date" false));
  mret {| data := data r; error := error r |}.

Definition addExpense (expense : Row) : Prog (Reply Data) :=
  r ← call (Rest (from expenses .> insert_ [expense] .> returning_ .> single_));
  mret {| data := data r; error := error r |}.

Definition updateExpense (id : string) (updates : Row) : Prog (Reply Data) :=
  r ← call (Rest (from expenses .> update_ updates
                    .> eq_ "id" (VText id) .> returning_ .> single_));
  mret {| data := data r; error := error r |}.

Definition deleteExpense (id : string) : Prog ErrorOnly :=
  r ← call (Rest (from expenses .> delete_ .> eq_ "id" (VText id)));
  mret {| only_error := error r |}.

(** ** Investment functions *)

Definition getInvestments (userId : string) : Prog (Reply Data) :=
  r ← call (Rest (from investments .> select_ AllColumns
                    .> eq_ "user_id" (VText userId) .> order_ "date" false));
  mret {| data := data r; error := error r |}.

Definition addInvestment (investment : Row) : Prog (Reply Data) :=
  r ← call (Rest (from investments .> insert_ [investment] .> returning_ .> single_));
  mret {| data := data r; error := error r |}.

Definition updateInvestment (id : string) (updates : Row) : Prog (Reply Data) :=
  r ← call (Rest (from investments .> update_ updates
                    .> eq_ "id" (VText id) .> returning_ .> single_));
  mret {| data := data r; error := error r |}.

Definition deleteInvestment (id : string) : Prog ErrorOnly :=
  r ← call (Rest (from investments .> delete_ .> eq_ "id" (VText id)));
  mret {| only_error := error r |}.

(** ** Savings functions *)

Definition getSavingsGoals (userId : string) : Prog (Reply Data) :=
  r ← call (Rest (from savings .> select_ AllColumns
                    .> eq_ "user_id" (VText userId) .> order_ "created_at" false));
  mret {| data := data r; error := error r |}.

Definition addSavingsGoal (goal : Row) : Prog (Reply Data) :=
  r ← call (Rest (from savings .> insert_ [goal] .> returning_ .> single_));
  mret {| data := data r; error := error r |}.

Definition updateSavingsGoal (id : string) (updates : Row) : Prog (Reply Data) :=
  r ← call (Rest (from savings .> update_ updates
                    .> eq_ "id" (VText id) .> returning_ .> single_));
  mret {| data := data r; error := error r |}.

Definition deleteSavingsGoal (id : string) : Prog ErrorOnly :=
  r ← call (Rest (from savings .> delete_ .> eq_ "id" (VText id)));
  mret {| only_error := error r |}.

(** ** Budget functions *)

Definition getBudgets (userId : string) : Prog (Reply Data) :=
  r ← call (Rest (from budgets .> select_ AllColumns
                    .> eq_ "user_id" (VText userId) .> order_ "created_at" false));
  mret {| data := data r; error := error r |}.

Definition addBudget (budget : Row) : Prog (Reply Data) :=
  r ← call (Rest (from budgets .> insert_ [budget] .> returning_ .> single_));
  mret {| data := data r; error := error r |}.

Definition updateBudget (id : string) (updates : Row) : Prog (Reply Data) :=
  r ← call (Rest (from budgets .> update_ updates
                    .> eq_ "id" (VText id) .> returning_ .> single_));
  mret {| data := data r; error := error r |}.

Definition deleteBudget (id : string) : Prog ErrorOnly :=
  r ← call (Rest (from budgets .> delete_ .> eq_ "id" (VText id)));
  mret {| only_error := error r |}.

(** ** Analytics functions *)

(** The [date] bound both queries of [getMonthlyData] use:
    [sixMonthsAgo.toISOString().split('T')[0]] after
    [sixMonthsAgo.setMonth(sixMonthsAgo.getMonth() - 6)]. *)
Definition sixMonthsAgo_date (now : JsDate) : string :=
  let sixMonthsAgo := setMonth now (getMonth now - 6) in
  split_0 "T" (toISOString sixMonthsAgo).

Definition monthly_query (t : Table) (userId : string) (now : JsDate) : Query :=
  from t .> select_ (Cols ["amount"; "date"])
    .> eq_ "user_id" (VText userId)
    .> gte_ "date" (VText (sixMonthsAgo_date now)).

Definition getMonthlyData (userId : string) : Prog MonthlyData :=
  now ← call NewDate;
  income_r ← call (Rest (monthly_query income userId now));
  expense_r ← call (Rest (monthly_query expenses userId now));
  mret {| incomeData := data income_r; expenseData := data expense_r;
          incomeError := error income_r; expenseError := error expense_r |}.

Definition getExpensesByCategory (userId : string) : Prog (Reply Data) :=
  r ← call (Rest (from expenses .> select_ (Cols ["category"; "amount"])
                    .> eq_ "user_id" (VText userId)));
  mret {| data := data r; error := error r |}.

(* ===================================================================== *)
(** * The export utility *)
(* ===================================================================== *)

(** The JavaScript values a flat record holds.  Numbers are the integers;
    nested objects and arrays are outside the model. *)
Inductive JsValue :=
| JUndefined
| JNull
| JBool (b : bool)
| JNum (n : Z)
| JStr (s : string).

(** A record: its own properties in the order [Object.keys] lists them.
    Property names are column names, none of them a member of
    [Object.prototype]. *)
Definition JsObject := list (string * JsValue).

Definition Object_keys (o : JsObject) : list string := map fst o.

(** [o[key]]: [undefined] when [o] has no such property. *)
Fixpoint get (o : JsObject) (key : string) : JsValue :=
  match o with
  | [] => JUndefined
  | (k, v) :: rest => if String.eqb k key then v else get rest key
  end.

Definition ToString (v : JsValue) : string :=
  match v with
  | JUndefined => "undefined"
  | JNull => "null"
  | JBool true => "true"
  | JBool false => "false"
  | JNum n => DecimalString.NilZero.string_of_int (Z.to_int n)
  | JStr s => s
  end.

(** [Array.prototype.join]: [undefined] and [null] elements give the empty
    string, every other element its [ToString]. *)
Definition join_element (v : JsValue) : string :=
  match v with
  | JUndefined | JNull => EmptyString
  | _ => ToString v
  end.

Definition array_join (sep : string) (l : list JsValue) : string :=
  String.concat sep (map join_element l).

(** [s.includes(c)] for a one-character [c]. *)
Fixpoint includes (s : string) (c : ascii) : bool :=
  match s with
  | EmptyString => false
  | String a rest => Ascii.eqb a c || includes rest c
  end.

Definition comma : ascii := ","%char.
Definition dquote : string := String (ascii_of_nat 34) EmptyString.
Definition newline : string := String (ascii_of_nat 10) EmptyString.

(** The body of the inner [headers.map]: the value itself, or the value
    between double quotes when it is a string with a comma in it. *)
Definition csv_value (row : JsObject) (header : string) : JsValue :=
  let value := get row header in
  match value with
  | JStr s => if includes s comma then JStr (dquote ++ s ++ dquote) else value
  | _ => value
  end.

Definition csv_row (headers : list string) (row : JsObject) : string :=
  array_join "," (map (csv_value row) headers).

Definition csv_lines (headers : list string) (data : list JsObject) : list string :=
  array_join "," (map JStr headers) :: map (csv_row headers) data.

Definition exportToCSV (data : list JsObject) (filename : string) : Prog unit :=
  match data with
  | [] => mret tt
  | first :: _ =>
    let headers := Object_keys first in
    let csvContent := String.concat newline (csv_lines headers data) in
    blob ← call (NewBlob [csvContent] "text/csv;charset=utf-8;");
    link ← call (CreateElement "a");
    url ← call (CreateObjectURL blob);
    _ ← call (SetAttribute link "href" url);
    _ ← call (SetAttribute link "download" filename);
    _ ← call (SetStyleVisibility link "hidden");
    _ ← call (BodyAppendChild link);
    _ ← call (Click link);
    call (BodyRemoveChild link)
  end.

(* ===================================================================== *)
(** * The backend: schema, row-level security, query execution *)
(* ===================================================================== *)

(** The facade only builds requests; what a request does is fixed by the
    schema the migration declares and by the table API that serves it.
    This part gives one request its meaning on a database state: the
    policies decide which rows the caller sees and may write, the column
    types and constraints decide which rows may be stored, and
    [.select()] and [.single()] decide what comes back.  Literals are
    taken well-formed for their columns (uuid and date syntax is not
    checked), and every table named exists with the columns its
    interface lists. *)

(** ** Comparing values *)

(** The value of a column, [VNull] where the row has none. *)
Definition col (r : Row) (c : string) : Value := default VNull (r !! c).

(** SQL [=]: never true of a null. *)
Definition value_eqb (a b : Value) : bool :=
  match a, b with
  | VNum p, VNum q => Qeq_bool p q
  | VText s, VText t => String.eqb s t
  | VTime s, VTime t => s =? t
  | _, _ => false
  end.

(** The sort order of values; a null sorts after every other value, so it
    comes first in a descending order. *)
Definition value_leb (a b : Value) : bool :=
  match a, b with
  | _, VNull => true
  | VNull, _ => false
  | VNum p, VNum q => Qle_bool p q
  | VNum _, _ => true
  | VText _, VNum _ => false
  | VText s, VText t => String.leb s t
  | VText _, VTime _ => true
  | VTime s, VTime t => s <=? t
  | VTime _, _ => false
  end.

(** SQL [>=] between values of one type: never true of a null. *)
Definition value_geb (a b : Value) : bool :=
  match a, b with
  | VNum p, VNum q => Qle_bool q p
  | VText s, VText t => String.leb t s
  | VTime s, VTime t => t <=? s
  | _, _ => false
  end.

Definition matches (fs : list Filter) (r : Row) : bool :=
  forallb (fun f =>
    match f with
    | FEq c v => value_eqb (col r c) v
    | FGte c v => value_geb (col r c) v
    end) fs.

(** [ORDER BY column], ascending or descending. *)
Definition row_before (column : string) (ascending : bool) (r1 r2 : Row) : Prop :=
  if ascending then value_leb (col r1 column) (col r2 column) = true
  else value_leb (col r2 column) (col r1 column) = true.

#[global] Instance row_before_dec column ascending r1 r2 :
  Decision (row_before column ascending r1 r2).
Proof. unfold row_before. destruct ascending; apply _. Defined.

Definition project (cols : Columns) (r : Row) : Row :=
  match cols with
  | AllColumns => r
  | Cols cs => filter (fun kv => kv.1 ∈ cs) r
  end.

(** ** Error objects *)

Definition insufficient_privilege : Error :=
  {| err_code := "42501"; err_message := "row-level security policy violated" |}.
Definition not_null_violation : Error :=
  {| err_code := "23502"; err_message := "null value violates not-null constraint" |}.
Definition foreign_key_violation : Error :=
  {| err_code := "23503"; err_message := "violates foreign key constraint" |}.
Definition unique_violation : Error :=
  {| err_code := "23505"; err_message := "duplicate key value violates unique constraint" |}.
Definition check_violation : Error :=
  {| err_code := "23514"; err_message := "new row violates check constraint" |}.
Definition numeric_value_out_of_range : Error :=
  {| err_code := "22003"; err_message := "numeric field overflow" |}.
Definition invalid_text_representation : Error :=
  {| err_code := "22P02"; err_message := "invalid input syntax" |}.
Definition not_single_row : Error :=
  {| err_code := "PGRST116";
     err_message := "JSON object requested, multiple (or no) rows returned" |}.

(** The specification's taxonomy of failures. *)
Inductive ErrorKind :=
| Transport
| Authentication
| Authorization
| ConstraintViolation
| NotFound.

(** The kind of a table-API error, by its code: the codes of SQLSTATE
    class 23 (integrity constraint violation) are constraint violations;
    the data exceptions of class 22, a value its column type refuses,
    are none of the five kinds. *)
Definition error_kind (e : Error) : option ErrorKind :=
  if decide (err_code e = "42501") then Some Authorization
  else if decide (err_code e ∈ ["23502"; "23503"; "23505"; "23514"])
  then Some ConstraintViolation
  else if decide (err_code e = "PGRST116") then Some NotFound
  else None.

(** ** The schema *)

(** What the migration of a table declares, as far as queries observe it. *)
Record Schema := {
  owner_column : string;          (* the column the policies compare with auth.uid() *)
  id_default : bool;              (* id ... DEFAULT gen_random_uuid() *)
  not_null : list string;         (* NOT NULL columns, the primary key included *)
  numeric_12_2 : list string;     (* columns of type numeric(12,2) *)
  check : Row -> bool;            (* the CHECK constraints *)
  references_users : list string; (* columns REFERENCES auth.users(id) *)
  updated_at_trigger : bool       (* BEFORE UPDATE ... handle_updated_at() *)
}.

(** [CHECK (budget_limit > 0)]: a check passes unless it is false. *)
Definition budget_limit_positive (r : Row) : bool :=
  match col r "budget_limit" with
  | VNum q => negb (Qle_bool q 0)
  | VNull => true
  | _ => false
  end.

(** The [budgets] table of the migration. *)
Definition budgets_schema : Schema :=
  {| owner_column := "user_id";
     id_default := true;
     not_null := ["id"; "user_id"; "category"; "budget_limit"; "start_date"];
     numeric_12_2 := ["budget_limit"];
     check := budget_limit_positive;
     references_users := ["user_id"];
     updated_at_trigger := true |}.

(** Modelled from the spec: the migrations of [income], [expenses],
    [investments], [savings] and [user_profiles] are not among the
    sources.  Each table has a server-generated primary key [id], policies
    that restrict every operation to the rows whose owning-user column is
    the caller's identity, and [created_at]/[updated_at] columns kept by a
    trigger; no further constraint is known. *)
Definition spec_schema (owner : string) (generated : bool) : Schema :=
  {| owner_column := owner;
     id_default := generated;
     not_null := ["id"];
     numeric_12_2 := [];
     check := fun _ => true;
     references_users := [];
     updated_at_trigger := true |}.

Definition schema (t : Table) : Schema :=
  match t with
  | budgets => budgets_schema
  | user_profiles => spec_schema "id" false
  | _ => spec_schema "user_id" true
  end.

(** ** Row-level security *)

(** [auth.uid() = user_id], for the role [authenticated]: with row-level
    security enabled a caller no policy is written for sees and writes
    nothing. *)
Definition owned_by (sch : Schema) (caller : option string) (r : Row) : bool :=
  match caller with
  | Some uid => bool_decide (r !! owner_column sch = Some (VText uid))
  | None => false
  end.

(** The four policies of a table.  A policy FOR UPDATE with no WITH CHECK
    clause applies its USING clause to the new row too. *)
Record Policies := {
  select_using : Row -> bool;
  insert_check : Row -> bool;
  update_using : Row -> bool;
  update_check : Row -> bool;
  delete_using : Row -> bool
}.

Definition policies (sch : Schema) (caller : option string) : Policies :=
  {| select_using := owned_by sch caller;
     insert_check := owned_by sch caller;
     update_using := owned_by sch caller;
     update_check := owned_by sch caller;
     delete_using := owned_by sch caller |}.

(** ** Database state and environment *)

Record DB := {
  rows_of : Table -> list Row;
  auth_users : list string
}.

Definition set_rows (db : DB) (t : Table) (rows : list Row) : DB :=
  {| rows_of := fun t' => if decide (t' = t) then rows else rows_of db t';
     auth_users := auth_users db |}.

(** What the server draws from outside the database during one request:
    [now()] and the successive results of [gen_random_uuid()]. *)
Record Env := { env_now : Z; env_uuid : nat -> string }.

(** ** Writing a row *)

(** The value a [numeric(12,2)] column stores for [q]: [q] rounded to two
    decimals, half away from zero; none when the rounded value needs more
    than ten digits before the point. *)
Definition cents (q : Q) : Z :=
  let n := Qnum q * 100 in
  let d := Z.pos (Qden q) in
  Z.sgn n * ((2 * Z.abs n + d) / (2 * d)).

Definition to_numeric_12_2 (q : Q) : option Q :=
  let c := cents q in
  if Z.abs c <? 10 ^ 12 then Some (Qred (c # 100)) else None.

Definition coerce_column (c : string) (acc : Error + Row) : Error + Row :=
  match acc with
  | inl e => inl e
  | inr r =>
    match r !! c with
    | Some (VNum q) =>
      match to_numeric_12_2 q with
      | Some q' => inr (<[c := VNum q']> r)
      | None => inl numeric_value_out_of_range
      end
    | Some VNull | None => inr r
    | Some _ => inl invalid_text_representation
    end
  end.

Definition coerce (sch : Schema) (r : Row) : Error + Row :=
  foldr coerce_column (inr r) (numeric_12_2 sch).

Definition is_null (v : Value) : bool :=
  match v with VNull => true | _ => false end.

(** The checks on a new row, in the order the server makes them: the
    policy's check, NOT NULL, CHECK. *)
Definition violation (sch : Schema) (policy_check : Row -> bool) (new : Row)
  : option Error :=
  if negb (policy_check new) then Some insufficient_privilege
  else if existsb (fun c => is_null (col new c)) (not_null sch) then Some not_null_violation
  else if negb (check sch new) then Some check_violation
  else None.

(** No row of [others] has the primary key of [new]. *)
Definition pk_free (others : list Row) (new : Row) : bool :=
  forallb (fun r => negb (value_eqb (col r "id") (col new "id"))) others.

Definition in_users (users : list string) (v : Value) : bool :=
  match v with
  | VText u => bool_decide (u ∈ users)
  | VNull => true
  | _ => false
  end.

Definition defaults (env : Env) (sch : Schema) (i : nat) : Row :=
  let stamps : Row :=
    <["created_at" := VTime (env_now env)]>
      (<["updated_at" := VTime (env_now env)]> ∅) in
  if id_default sch then <["id" := VText (env_uuid env i)]> stamps else stamps.

(** INSERT of one payload, the [i]-th of its statement, into [table]:
    the payload is cast to the column types and the columns it does not
    name take their defaults. *)
Definition insert_row (env : Env) (sch : Schema) (pol : Policies)
    (users : list string) (table : list Row) (i : nat) (payload : Row)
  : Error + Row :=
  match coerce sch payload with
  | inl e => inl e
  | inr payload' =>
    let new := payload' ∪ defaults env sch i in
    match violation sch (insert_check pol) new with
    | Some e => inl e
    | None =>
      if negb (pk_free table new) then inl unique_violation
      else if negb (forallb (fun c => in_users users (col new c)) (references_users sch))
      then inl foreign_key_violation
      else inr new
    end
  end.

(** The table after the statement and the rows it inserted. *)
Fixpoint insert_rows (env : Env) (sch : Schema) (pol : Policies)
    (users : list string) (table : list Row) (i : nat) (payloads : list Row)
  : Error + (list Row * list Row) :=
  match payloads with
  | [] => inr (table, [])
  | p :: ps =>
    match insert_row env sch pol users table i p with
    | inl e => inl e
    | inr new =>
      match insert_rows env sch pol users (table ++ [new]) (S i) ps with
      | inl e => inl e
      | inr (table', news) => inr (table', new :: news)
      end
    end
  end.

(** Modelled from the spec: the body of [handle_updated_at()] is not among
    the sources; the trigger refreshes [updated_at] on every update. *)
Definition handle_updated_at (env : Env) (new : Row) : Row :=
  <["updated_at" := VTime (env_now env)]> new.

(** UPDATE of one row: the named columns are assigned their values, cast
    to the column types, the BEFORE UPDATE trigger runs, then the checks; a reference is checked again only when
    its column changed. *)
Definition update_row (env : Env) (sch : Schema) (pol : Policies)
    (users : list string) (values : Row) (old : Row) : Error + Row :=
  match coerce sch values with
  | inl e => inl e
  | inr values' =>
    let assigned := values' ∪ old in
    let new := if updated_at_trigger sch then handle_updated_at env assigned
               else assigned in
    match violation sch (update_check pol) new with
    | Some e => inl e
    | None =>
      if negb (forallb (fun c => bool_decide (col new c = col old c)
                                  || in_users users (col new c))
                       (references_users sch))
      then inl foreign_key_violation
      else inr new
    end
  end.

(** The table after the statement and the new versions of the rows it
    updated. *)
Fixpoint update_rows (env : Env) (sch : Schema) (pol : Policies)
    (users : list string) (values : Row) (target : Row -> bool) (rows : list Row)
  : Error + (list Row * list Row) :=
  match rows with
  | [] => inr ([], [])
  | r :: rest =>
    if target r then
      match update_row env sch pol users values r with
      | inl e => inl e
      | inr new =>
        match update_rows env sch pol users values target rest with
        | inl e => inl e
        | inr (rest', news) => inr (new :: rest', new :: news)
        end
      end
    else
      match update_rows env sch pol users values target rest with
      | inl e => inl e
      | inr (rest', news) => inr (r :: rest', news)
      end
  end.

(** Every written row is the only one of the table with its primary key. *)
Definition pk_unique (table : list Row) (written : list Row) : bool :=
  forallb (fun w =>
    Nat.eqb (List.length (filter (fun r => value_eqb (col r "id") (col w "id") = true) table)) 1)
    written.

(** ** Executing one query *)

(** The answer to a mutation: the written rows when [.select()] asked for
    them; with [.single()] anything but exactly one row is an error and
    the statement is rolled back. *)
Definition finish (q : Query) (db db' : DB) (written : list Row) : DB * Reply Data :=
  match q_returning q with
  | None => (db', {| data := DNull; error := None |})
  | Some cols =>
    let out := map (project cols) written in
    if q_single q then
      match out with
      | [r] => (db', {| data := DRow r; error := None |})
      | _ => (db, {| data := DNull; error := Some not_single_row |})
      end
    else (db', {| data := DRows out; error := None |})
  end.

Definition failed (db : DB) (e : Error) : DB * Reply Data :=
  (db, {| data := DNull; error := Some e |}).

Definition exec (env : Env) (caller : option string) (db : DB) (q : Query)
  : DB * Reply Data :=
  let t := q_table q in
  let sch := schema t in
  let pol := policies sch caller in
  let rows := rows_of db t in
  match q_verb q with
  | VSelect cols =>
    let visible := filter (fun r => select_using pol r = true) rows in
    let matched := filter (fun r => matches (q_filters q) r = true) visible in
    let ordered :=
      match q_order q with
      | Some (column, ascending) => merge_sort (row_before column ascending) matched
      | None => matched
      end in
    let out := map (project cols) ordered in
    if q_single q then
      match out with
      | [r] => (db, {| data := DRow r; error := None |})
      | _ => (db, {| data := DNull; error := Some not_single_row |})
      end
    else (db, {| data := DRows out; error := None |})
  | VInsert payloads =>
    match insert_rows env sch pol (auth_users db) rows 0 payloads with
    | inl e => failed db e
    | inr (rows', news) => finish q db (set_rows db t rows') news
    end
  | VUpdate values =>
    if bool_decide (values = ∅) then finish q db db []
    else
      let target r :=
        update_using pol r && select_using pol r && matches (q_filters q) r in
      match update_rows env sch pol (auth_users db) values target rows with
      | inl e => failed db e
      | inr (rows', news) =>
        if pk_unique rows' news then finish q db (set_rows db t rows') news
        else failed db unique_violation
      end
  | VDelete =>
    let target r :=
      delete_using pol r && select_using pol r && matches (q_filters q) r in
    let rows' := filter (fun r => target r = false) rows in
    let gone := filter (fun r => target r = true) rows in
    finish q db (set_rows db t rows') gone
  end.

(** The environment of a signed-in (or anonymous) caller: table requests
    go to the database, every other request to [other]. *)
Definition backend (env : Env) (caller : option string) (other : Handler)
  : SHandler DB :=
  fun c =>
    match c as c' return DB -> DB * answer c' with
    | Rest q => fun db => exec env caller db q
    | c' => fun db => (db, other c')
    end.

(* ===================================================================== *)
(** * The facade as one family of calls *)
(* ===================================================================== *)

(** The five entities with the four operations list, create, update and
    delete. *)
Inductive Entity := Income | Expense | Investment | SavingsGoal | Budget.

Definition table_of (e : Entity) : Table :=
  match e with
  | Income => income
  | Expense => expenses
  | Investment => investments
  | SavingsGoal => savings
  | Budget => budgets
  end.

(** The column each list operation orders by. *)
Definition order_column (e : Entity) : string :=
  match e with
  | Income | Expense | Investment => "date"
  | SavingsGoal | Budget => "created_at"
  end.

Definition list_op (e : Entity) : string -> Prog (Reply Data) :=
  match e with
  | Income => getIncome
  | Expense => getExpenses
  | Investment => getInvestments
  | SavingsGoal => getSavingsGoals
  | Budget => getBudgets
  end.

Definition create_op (e : Entity) : Row -> Prog (Reply Data) :=
  match e with
  | Income => addIncome
  | Expense => addExpense
  | Investment => addInvestment
  | SavingsGoal => addSavingsGoal
  | Budget => addBudget
  end.

Definition update_op (e : Entity) : string -> Row -> Prog (Reply Data) :=
  match e with
  | Income => updateIncome
  | Expense => updateExpense
  | Investment => updateInvestment
  | SavingsGoal => updateSavingsGoal
  | Budget => updateBudget
  end.

Definition delete_op (e : Entity) : string -> Prog ErrorOnly :=
  match e with
  | Income => deleteIncome
  | Expense => deleteExpense
  | Investment => deleteInvestment
  | SavingsGoal => deleteSavingsGoal
  | Budget => deleteBudget
  end.

(** Every exported function of the facade with its arguments. *)
Inductive FacadeCall :=
| CallSignUp (email password name : string) (userType : UserType)
| CallSignInWithGoogle
| CallSignIn (email password : string)
| CallSignOut
| CallGetCurrentUser
| CallGetUserProfile (userId : string)
| CallUpdateUserProfile (userId : string) (updates : Row)
| CallList (e : Entity) (userId : string)
| CallCreate (e : Entity) (record : Row)
| CallUpdate (e : Entity) (id : string) (updates : Row)
| CallDelete (e : Entity) (id : string)
| CallGetMonthlyData (userId : string)
| CallGetExpensesByCategory (userId : string).

(** What a facade function hands to its caller. *)
Inductive Outcome :=
| OutAuth (r : Reply AuthData)
| OutOAuth (r : Reply OAuthData)
| OutError (r : ErrorOnly)
| OutUser (r : UserAndError)
| OutData (r : Reply Data)
| OutMonthly (r : MonthlyData).

Definition invoke (c : FacadeCall) : Prog Outcome :=
  match c with
  | CallSignUp email password name userType =>
      OutAuth <$> signUp email password name userType
  | CallSignInWithGoogle => OutOAuth <$> signInWithGoogle
  | CallSignIn email password => OutAuth <$> signIn email password
  | CallSignOut => OutError <$> signOut
  | CallGetCurrentUser => OutUser <$> getCurrentUser
  | CallGetUserProfile userId => OutData <$> getUserProfile userId
  | CallUpdateUserProfile userId updates => OutData <$> updateUserProfile userId updates
  | CallList e userId => OutData <$> list_op e userId
  | CallCreate e record => OutData <$> create_op e record
  | CallUpdate e id updates => OutData <$> update_op e id updates
  | CallDelete e id => OutError <$> delete_op e id
  | CallGetMonthlyData userId => OutMonthly <$> getMonthlyData userId
  | CallGetExpensesByCategory userId => OutData <$> getExpensesByCategory userId
  end.

(** The payloads a result carries, whatever their type. *)
Inductive Payload :=
| PAuth (d : AuthData)
| POAuth (d : OAuthData)
| PUser (u : option User)
| PData (d : Data).

Definition out_data (o : Outcome) : list Payload :=
  match o with
  | OutAuth r => [PAuth (data r)]
  | OutOAuth r => [POAuth (data r)]
  | OutError _ => []
  | OutUser r => [PUser (cu_user r)]
  | OutData r => [PData (data r)]
  | OutMonthly r => [PData (incomeData r); PData (expenseData r)]
  end.

(** The error indicators a result carries. *)
Definition out_errors (o : Outcome) : list (option Error) :=
  match o with
  | OutAuth r => [error r]
  | OutOAuth r => [error r]
  | OutError r => [only_error r]
  | OutUser r => [cu_error r]
  | OutData r => [error r]
  | OutMonthly r => [incomeError r; expenseError r]
  end.

(** The payload and the error object the backend put in an answer; none
    for the requests that do not go to the backend. *)
Definition answer_data (c : Request) : answer c -> list Payload :=
  match c with
  | AuthSignUp _ _ _ _ _ => fun a => [PAuth (data a)]
  | AuthSignInWithOAuth _ _ => fun a => [POAuth (data a)]
  | AuthSignInWithPassword _ _ => fun a => [PAuth (data a)]
  | AuthGetUser => fun a => [PUser (user (data a))]
  | Rest q =>
      fun a => match q_verb q, q_returning q with
               | VDelete, None => []
               | _, _ => [PData (data a)]
               end
  | _ => fun _ => []
  end.

Definition answer_error (c : Request) : answer c -> list (option Error) :=
  match c with
  | AuthSignUp _ _ _ _ _ => fun a => [error a]
  | AuthSignInWithOAuth _ _ => fun a => [error a]
  | AuthSignInWithPassword _ _ => fun a => [error a]
  | AuthSignOut => fun a => [a]
  | AuthGetUser => fun a => [error a]
  | Rest _ => fun a => [error a]
  | _ => fun _ => []
  end.

Definition trace_data (tr : list Obs) : list Payload :=
  mjoin (map (fun o => match o with
                       | Settled c a => answer_data c a
                       | Issued _ => []
                       end) tr).

Definition trace_errors (tr : list Obs) : list (option Error) :=
  mjoin (map (fun o => match o with
                       | Settled c a => answer_error c a
                       | Issued _ => []
                       end) tr).

(** The rows a result shows to the caller. *)
Definition data_rows (d : Data) : list Row :=
  match d with
  | DNull => []
  | DRow r => [r]
  | DRows rs => rs
  end.

Definition returned_rows (o : Outcome) : list Row :=
  match o with
  | OutData r => data_rows (data r)
  | OutMonthly r => data_rows (incomeData r) ++ data_rows (expenseData r)
  | _ => []
  end.

(** The rows of a table a user owns. *)
Definition owns (t : Table) (uid : string) (r : Row) : Prop :=
  r !! owner_column (schema t) = Some (VText uid).

#[global] Instance owns_dec t uid r : Decision (owns t uid r).
Proof. unfold owns. apply _. Defined.

(* ===================================================================== *)
(** * Vocabulary of the properties *)
(* ===================================================================== *)


(** The text of one cell of a data line. *)
Definition csv_cell (row : JsObject) (header : string) : string :=
  join_element (csv_value row header).

(** The requests of a run that went to the backend (the identity provider
    or the table API). *)
Definition backend_requests (tr : list Obs) : list Request :=
  omap (fun o => match o with
                 | Issued (AuthSignUp a b c d e) => Some (AuthSignUp a b c d e)
                 | Issued (AuthSignInWithOAuth a b) => Some (AuthSignInWithOAuth a b)
                 | Issued (AuthSignInWithPassword a b) => Some (AuthSignInWithPassword a b)
                 | Issued AuthSignOut => Some AuthSignOut
                 | Issued AuthGetUser => Some AuthGetUser
                 | Issued (Rest q) => Some (Rest q)
                 | _ => None
                 end) tr.

(** The observations of a run against a given environment. *)
Fixpoint observe {R : Type} (h : Handler) (p : Prog R) : list Obs :=
  match p with
  | Ret _ => []
  | Do c k => Issued c :: Settled c (h c) :: observe h (k (h c))
  end.

(** An environment for examples: the clock reads [now], every other request
    gets an empty answer. *)
Definition quiet (now : JsDate) : Handler :=
  fun c =>
    match c with
    | NewDate => now
    | LocationOrigin => "https://app.example"
    | AuthSignUp _ _ _ _ _ | AuthSignInWithPassword _ _ =>
        {| data := {| auth_user := None; auth_session := None |}; error := None |}
    | AuthSignInWithOAuth provider _ =>
        {| data := {| oauth_provider := provider; oauth_url := None |}; error := None |}
    | AuthSignOut => None
    | AuthGetUser => {| data := {| user := None |}; error := None |}
    | Rest _ => {| data := DNull; error := None |}
    | NewBlob _ _ | CreateElement _ => 0%nat
    | CreateObjectURL _ => "blob:0"
    | SetAttribute _ _ _ | SetStyleVisibility _ _ | BodyAppendChild _
    | Click _ | BodyRemoveChild _ => tt
    end.

(** The same environment, except that the table API answers the requests
    on [income] with the error [e1] and those on [expenses] with [e2]. *)
Definition failing (now : JsDate) (e1 e2 : option Error) : Handler :=
  fun c =>
    match c as c' return answer c' with
    | Rest q =>
        match q_table q with
        | income => {| data := DNull; error := e1 |}
        | expenses => {| data := DNull; error := e2 |}
        | _ => {| data := DNull; error := None |}
        end
    | c' => quiet now c'
    end.

Definition epoch : JsDate := {| time_value := 0; local_tza := 0 |}.

(** The object [addBudget] is given: a budget without its server-generated
    fields. *)
Definition new_budget (userId category : string) (budget_limit : Q)
    (start_date : string) : Row :=
  <["user_id" := VText userId]>
    (<["category" := VText category]>
       (<["budget_limit" := VNum budget_limit]>
          (<["start_date" := VText start_date]> ∅))).

(** The row the table holds for it. *)
Definition stored_budget (id userId category : string) (budget_limit : Q)
    (start_date : string) (created_at updated_at : Z) : Row :=
  <["id" := VText id]>
    (<["created_at" := VTime created_at]>
       (<["updated_at" := VTime updated_at]>
          (new_budget userId category budget_limit start_date))).

(** The calendar day of [now], as [toISOString] prints it. *)
Definition today (now : JsDate) : string := split_0 "T" (toISOString now).

(** Modelled on the specification's words: a date of the trailing six
    months lies between the day six months before [now] and the day of
    [now]. *)
Definition in_trailing_six_months (now : JsDate) (date : string) : bool :=
  String.leb (sixMonthsAgo_date now) date && String.leb date (today now).

(** The rows a monthly query returns: those the caller may read, of the
    given user, dated on or after [cutoff], cut down to amount and date. *)
Definition on_or_after (cutoff : string) (r : Row) : Prop :=
  value_geb (col r "date") (VText cutoff) = true.

#[global] Instance on_or_after_dec cutoff r : Decision (on_or_after cutoff r).
Proof. unfold on_or_after. apply _. Defined.

Definition monthly_rows (t : Table) (caller : option string)
    (userId cutoff : string) (rows : list Row) : list Row :=
  map (project (Cols ["amount"; "date"]))
    (filter (on_or_after cutoff)
       (filter (fun r => value_eqb (col r "user_id") (VText userId) = true)
          (filter (fun r => owned_by (schema t) caller r = true) rows))).

(** A clock reading: 2025-06-15T15:06:40Z. *)
Definition mid_june_2025 : JsDate :=
  {| time_value := 1750000000000; local_tza := 0 |}.

(** An income record dated after that day. *)
Definition income_of_2099 : Row :=
  <["id" := VText "i1"]>
    (<["user_id" := VText "u1"]>
       (<["amount" := VNum 100]>
          (<["source" := VText "bond"]>
             (<["date" := VText "2099-01-01"]>
                (<["category" := VText "interest"]>
                   (<["notes" := VText EmptyString]>
                      (<["created_at" := VTime 1]>
                         (<["updated_at" := VTime 1]> ∅)))))))).

Definition db_income_of_2099 : DB :=
  {| rows_of := fun t => match t with income => [income_of_2099] | _ => [] end;
     auth_users := ["u1"] |}.

Definition env_0 : Env := {| env_now := 0; env_uuid := fun _ => "id-0" |}.


(** A signed-in user's budget and the database that holds only it. *)
Definition budget_b1 : Row :=
  stored_budget "b1" "u1" "food" (21 # 2) "2025-01-01" 1000 1000.

Definition db_budget_b1 : DB :=
  {| rows_of := fun t => match t with budgets => [budget_b1] | _ => [] end;
     auth_users := ["u1"] |}.

Definition env_2000 : Env := {| env_now := 2000; env_uuid := fun _ => "id-0" |}.


(** A negative limit with eleven digits before the point. *)
Definition minus_ten_billion : Q := (-10000000000) # 1.

(** A predicate on the rows of a table that holds of no row of [A]: it
    selects rows of other users only. *)
Definition foreign (A : string) (t : Table) (P : Row -> Prop) : Prop :=
  forall r, owns t A r -> ~ P r.

(** Two users with a budget each. *)
Definition budget_b2 : Row :=
  stored_budget "b2" "u2" "rent" (800 # 1) "2025-01-01" 1000 1000.

Definition db_two_users : DB :=
  {| rows_of := fun t => match t with budgets => [budget_b1; budget_b2] | _ => [] end;
     auth_users := ["u1"; "u2"] |}.


(* ===================================================================== *)
(** * Vocabulary of the further properties *)
(* ===================================================================== *)

(** The row of table [t] that user [A] owns under the key [id]. *)
Definition own_with_id (t : Table) (A id : string) (r : Row) : Prop :=
  owns t A r /\ r !! "id" = Some (VText id).

#[global] Instance own_with_id_dec t A id r : Decision (own_with_id t A id r).
Proof. unfold own_with_id. apply _. Defined.

(** A row that meets what the migration of its table declares: no null
    in a NOT NULL column, the CHECK constraints, and existing users in
    the columns that reference [auth.users]. *)
Definition row_ok (t : Table) (users : list string) (r : Row) : Prop :=
  existsb (fun c => is_null (col r c)) (not_null (schema t)) = false /\
  check (schema t) r = true /\
  forallb (fun c => in_users users (col r c)) (references_users (schema t)) = true.

(** A database all of whose rows meet the constraints of their tables. *)
Definition constraints_hold (db : DB) : Prop :=
  forall t, Forall (row_ok t (auth_users db)) (rows_of db t).

(** Rows with the primary key of [r], and a table in which no two rows
    share their primary key. *)
Definition same_key (r x : Row) : Prop :=
  value_eqb (col x "id") (col r "id") = true.

#[global] Instance same_key_dec r x : Decision (same_key r x).
Proof. unfold same_key. apply _. Defined.

Definition keys_distinct (rows : list Row) : Prop :=
  forall r, r ∈ rows -> (List.length (filter (same_key r) rows) <= 1)%nat.

(** The text of a value in a data line of the export. *)
Definition csv_text (v : JsValue) : string :=
  join_element
    (match v with
     | JStr s => if includes s comma then JStr (dquote ++ s ++ dquote) else v
     | _ => v
     end).

(** A record with its [null] and [undefined] values turned into empty
    strings. *)
Definition blank (v : JsValue) : JsValue :=
  match v with
  | JUndefined | JNull => JStr EmptyString
  | _ => v
  end.

Definition blank_record (o : JsObject) : JsObject :=
  map (fun kv => (fst kv, blank (snd kv))) o.

(** The requests every delete function and every create function send. *)
Definition delete_query (t : Table) (id : string) : Query :=
  {| q_table := t; q_verb := VDelete; q_filters := [FEq "id" (VText id)];
     q_order := None; q_returning := None; q_single := false |}.

Definition create_query (t : Table) (record : Row) : Query :=
  {| q_table := t; q_verb := VInsert [record]; q_filters := [];
     q_order := None; q_returning := Some AllColumns; q_single := true |}.

(* ===================================================================== *)
(** * Theorems *)
(* ===================================================================== *)

(** ** The calendar on known days *)

Example epoch_day : days_from_civil 1970 0 1 = 0 /\ civil_from_days 0 = (1970, 0, 1).
Proof. split; reflexivity. Qed.

Example leap_days :
  civil_from_days (days_from_civil 2024 1 28 + 1) = (2024, 1, 29) /\
  civil_from_days (days_from_civil 2023 1 28 + 1) = (2023, 2, 1) /\
  civil_from_days (days_from_civil 1900 1 28 + 1) = (1900, 2, 1) /\
  civil_from_days (days_from_civil 2000 1 28 + 1) = (2000, 1, 29).
Proof. repeat split; reflexivity. Qed.

(** Six months before the 31st of August there is no 31st of February:
    the day carries into March. *)
Example setMonth_carries_days :
  let now := {| time_value := days_from_civil 2025 7 31 * msPerDay; local_tza := 0 |} in
  toISOString now = "2025-08-31T00:00:00.000Z" /\
  sixMonthsAgo_date now = "2025-03-03".
Proof. split; reflexivity. Qed.

(* ===================================================================== *)
(** * Properties of the export utility *)
(* ===================================================================== *)

Section ExportRequests.

Variable h : Handler.

(** C9: exporting the empty list is the program that returns at once; run
    in any environment it sends no request at all (no blob, no link, no
    click) and returns normally. *)
Theorem exportToCSV_empty_no_action (filename : string) :
  exportToCSV [] filename = Ret tt /\
  run h (exportToCSV [] filename) = ([], tt) /\
  (forall tr r, traces (exportToCSV [] filename) tr r <-> tr = [] /\ r = tt).
Proof.
  split; [reflexivity|]. split; [reflexivity|].
  intros tr r. simpl. destruct r. tauto.
Qed.

(** What a non-empty export sends: one blob holding the lines joined by
    newlines, then the hidden link that downloads it under [filename]. *)
Lemma exportToCSV_requests (first : JsObject) (rest : list JsObject) (filename : string) :
  let content :=
    String.concat newline (csv_lines (Object_keys first) (first :: rest)) in
  let blob := h (NewBlob [content] "text/csv;charset=utf-8;") in
  let link := h (CreateElement "a") in
  let url := h (CreateObjectURL blob) in
  run h (exportToCSV (first :: rest) filename) =
    ([NewBlob [content] "text/csv;charset=utf-8;";
      CreateElement "a";
      CreateObjectURL blob;
      SetAttribute link "href" url;
      SetAttribute link "download" filename;
      SetStyleVisibility link "hidden";
      BodyAppendChild link;
      Click link;
      BodyRemoveChild link], tt).
Proof.
  cbv zeta. unfold exportToCSV. cbn [run mbind Prog_bind bind call].
  repeat match goal with
         | |- context [h ?c] => let x := fresh "a" in generalize (h c) as x; intro x; cbn in x
         end.
  repeat match goal with u : unit |- _ => destruct u end. reflexivity.
Qed.

End ExportRequests.

Lemma join_JStr (sep : string) (l : list string) :
  array_join sep (map JStr l) = String.concat sep l.
Proof.
  unfold array_join. f_equal. induction l as [|x l IH]; simpl; congruence.
Qed.

Lemma csv_row_cells (headers : list string) (row : JsObject) :
  csv_row headers row = String.concat "," (map (csv_cell row) headers).
Proof.
  unfold csv_row, array_join, csv_cell. f_equal.
  induction headers as [|x l IH]; simpl; congruence.
Qed.






Section ExportContent.

Variable h : Handler.



End ExportContent.


(* ===================================================================== *)
(** * Properties of the facade in an arbitrary environment *)
(* ===================================================================== *)

(** A run against an environment is one of the program's traces. *)
Lemma observe_traces {R : Type} (h : Handler) (p : Prog R) :
  traces p (observe h p) (snd (run h p)).
Proof.
  induction p as [r|c k IH]; simpl; [auto|].
  exists (h c), (observe h (k (h c))). split; [reflexivity|].
  specialize (IH (h c)). destruct (run h (k (h c))). exact IH.
Qed.

(** Unfold the traces of a concrete program. *)
Ltac open_traces H :=
  repeat match type of H with
         | exists _, _ => let a := fresh "a" in destruct H as [a H]
         | _ /\ _ => let E := fresh "E" in destruct H as [E H]
         end; subst.

(** C7: every facade function returns in every environment, and what it
    returns is what the backend answered: its error indicators are the
    backend's error objects, one per request and in the order of the
    requests, its data the backend's data; a request is sent once,
    whatever the answer. *)
Theorem facade_returns_backend_answer (c : FacadeCall) :
  (forall h : Handler, traces (invoke c) (observe h (invoke c)) (snd (run h (invoke c)))) /\
  (forall (tr : list Obs) (out : Outcome),
     traces (invoke c) tr out ->
     out_errors out = trace_errors tr /\
     out_data out = trace_data tr /\
     List.length (backend_requests tr) = List.length (out_errors out)).
Proof.
  split; [intros h; apply observe_traces|].
  intros tr out H.
  destruct c as [? ? ? ?| |? ?| | |?|? ?|[] ?|[] ?|[] ? ?|[] ?|?|?];
    simpl in H; open_traces H; repeat split; reflexivity.
Qed.

(** A failing sign-in: the error object comes back as it is. *)
Lemma facade_returns_backend_answer_witness :
  let e := {| err_code := "invalid_credentials"; err_message := "Invalid login" |} in
  let a : answer (AuthSignInWithPassword "a@b.c" "pw") :=
    {| data := {| auth_user := None; auth_session := None |}; error := Some e |} in
  out_errors (OutAuth {| data := data a; error := error a |}) = [Some e].
Proof.
  intros e a.
  destruct (facade_returns_backend_answer (CallSignIn "a@b.c" "pw")) as [_ H].
  destruct (H [Issued (AuthSignInWithPassword "a@b.c" "pw");
               Settled (AuthSignInWithPassword "a@b.c" "pw") a]
              (OutAuth {| data := data a; error := error a |})) as (He & _ & _).
  - simpl. exists a. eexists. split; [reflexivity|]. split; reflexivity.
  - exact He.
Defined.

(** The traces of [getMonthlyData]: the clock is read, then the income
    request goes out and is answered, and only then the expense request. *)
Lemma getMonthlyData_traces (userId : string) (tr : list Obs) (r : MonthlyData) :
  traces (getMonthlyData userId) tr r <->
  exists (now : JsDate) (income_r expense_r : Reply Data),
    tr = [Issued NewDate; Settled NewDate now;
          Issued (Rest (monthly_query income userId now));
          Settled (Rest (monthly_query income userId now)) income_r;
          Issued (Rest (monthly_query expenses userId now));
          Settled (Rest (monthly_query expenses userId now)) expense_r] /\
    r = {| incomeData := data income_r; expenseData := data expense_r;
           incomeError := error income_r; expenseError := error expense_r |}.
Proof.
  split.
  - intros H. simpl in H. open_traces H. eauto.
  - intros (now & a1 & a2 & -> & ->). simpl.
    exists now. eexists. split; [reflexivity|].
    exists a1. eexists. split; [reflexivity|].
    exists a2. eexists. split; [reflexivity|]. split; reflexivity.
Qed.

(** The two requests are not in flight together: no run of
    [getMonthlyData] has the expense request answered before the income
    request. *)
Lemma getMonthlyData_expenses_never_first :
  ~ exists (userId : string) (tr : list Obs) (r : MonthlyData),
      traces (getMonthlyData userId) tr r /\
      settle_order tr = [expenses; income].
Proof.
  intros (userId & tr & r & H & Horder).
  apply getMonthlyData_traces in H as (now & a1 & a2 & -> & _).
  discriminate Horder.
Qed.

(** C4, amended: the two requests are sent one after the other, the
    expense request only once the income request has been answered, and
    it is sent whatever that answer was; each of the two may fail or
    succeed whatever the other does. *)
Theorem getMonthlyData_sequential_independent_failures (userId : string) :
  (forall (tr : list Obs) (r : MonthlyData),
     traces (getMonthlyData userId) tr r ->
     exists (now : JsDate) (income_r expense_r : Reply Data),
       tr = [Issued NewDate; Settled NewDate now;
             Issued (Rest (monthly_query income userId now));
             Settled (Rest (monthly_query income userId now)) income_r;
             Issued (Rest (monthly_query expenses userId now));
             Settled (Rest (monthly_query expenses userId now)) expense_r] /\
       settle_order tr = [income; expenses] /\
       incomeError r = error income_r /\ expenseError r = error expense_r) /\
  (forall e1 e2 : option Error,
     exists (tr : list Obs) (r : MonthlyData),
       traces (getMonthlyData userId) tr r /\
       incomeError r = e1 /\ expenseError r = e2).
Proof.
  split.
  - intros tr r H. apply getMonthlyData_traces in H as (now & a1 & a2 & -> & ->).
    exists now, a1, a2. repeat split; reflexivity.
  - intros e1 e2.
    exists (observe (failing epoch e1 e2) (getMonthlyData userId)),
           (snd (run (failing epoch e1 e2) (getMonthlyData userId))).
    split; [apply observe_traces|]. split; reflexivity.
Qed.

(** A run where the income request fails and the expense request
    succeeds. *)
Lemma getMonthlyData_sequential_independent_failures_witness :
  let h := failing epoch (Some not_single_row) None in
  settle_order (observe h (getMonthlyData "u1")) = [income; expenses] /\
  incomeError (snd (run h (getMonthlyData "u1"))) = Some not_single_row /\
  expenseError (snd (run h (getMonthlyData "u1"))) = None.
Proof.
  intros h.
  destruct (getMonthlyData_sequential_independent_failures "u1") as [Hseq _].
  destruct (Hseq (observe h (getMonthlyData "u1")) (snd (run h (getMonthlyData "u1")))
              (observe_traces h (getMonthlyData "u1")))
    as (now & a1 & a2 & Htr & Horder & _).
  split; [exact Horder|]. split; reflexivity.
Defined.

(* ===================================================================== *)
(** * The order of values *)
(* ===================================================================== *)

Lemma string_compare_not_gt_trans (s1 s2 s3 : string) :
  String.compare s1 s2 <> Gt -> String.compare s2 s3 <> Gt ->
  String.compare s1 s3 <> Gt.
Proof.
  revert s2 s3. induction s1 as [|a s1 IH]; intros [|b s2] [|c s3]; simpl;
    try congruence.
  unfold Ascii.compare.
  destruct (N.compare_spec (N_of_ascii a) (N_of_ascii b)) as [Hab|Hab|Hab];
    destruct (N.compare_spec (N_of_ascii b) (N_of_ascii c)) as [Hbc|Hbc|Hbc];
    try congruence; intros H12 H23.
  - rewrite Hab, Hbc, N.compare_refl. eauto.
  - rewrite Hab. apply N.compare_lt_iff in Hbc. rewrite Hbc. discriminate.
  - rewrite <- Hbc. apply N.compare_lt_iff in Hab. rewrite Hab. discriminate.
  - assert (Hac : (N_of_ascii a < N_of_ascii c)%N) by lia.
    apply N.compare_lt_iff in Hac. rewrite Hac. discriminate.
Qed.

Lemma string_leb_trans (s1 s2 s3 : string) :
  String.leb s1 s2 = true -> String.leb s2 s3 = true -> String.leb s1 s3 = true.
Proof.
  unfold String.leb. intros H12 H23.
  pose proof (string_compare_not_gt_trans s1 s2 s3) as H.
  destruct (String.compare s1 s2), (String.compare s2 s3), (String.compare s1 s3);
    try reflexivity; try discriminate; exfalso; apply H; congruence.
Qed.

Lemma Qle_bool_total (p q : Q) : Qle_bool p q = true \/ Qle_bool q p = true.
Proof.
  rewrite !Qle_bool_iff. destruct (Qlt_le_dec p q) as [H|H]; [left|right]; auto.
  apply Qlt_le_weak, H.
Qed.

Lemma value_leb_total (a b : Value) : value_leb a b = true \/ value_leb b a = true.
Proof.
  destruct a, b; simpl; auto using Qle_bool_total, String.leb_total.
  rewrite !Z.leb_le. lia.
Qed.

Lemma value_leb_trans (a b c : Value) :
  value_leb a b = true -> value_leb b c = true -> value_leb a c = true.
Proof.
  destruct a, b, c; simpl; try congruence.
  - rewrite !Qle_bool_iff. apply Qle_trans.
  - apply string_leb_trans.
  - rewrite !Z.leb_le. lia.
Qed.

#[global] Instance row_before_total column ascending :
  Total (row_before column ascending).
Proof.
  intros r1 r2. unfold row_before. destruct ascending; apply value_leb_total.
Qed.

#[global] Instance row_before_trans column ascending :
  Transitive (row_before column ascending).
Proof.
  intros r1 r2 r3. unfold row_before. destruct ascending; eauto using value_leb_trans.
Qed.

(* ===================================================================== *)
(** * Listing *)
(* ===================================================================== *)

(** A facade function that sends one table request runs as that request. *)
Lemma run_one_request {R : Type} (env : Env) (caller : option string)
    (other : Handler) (db : DB) (q : Query) (f : Reply Data -> R) :
  run_state (backend env caller other) (a ← call (Rest q); mret (f a)) db =
    (fst (exec env caller db q), f (snd (exec env caller db q))).
Proof. simpl. destruct (exec env caller db q). reflexivity. Qed.

(** What a list query returns. *)
Lemma exec_list (env : Env) (caller : option string) (db : DB)
    (t : Table) (fs : list Filter) (column : string) (ascending : bool) :
  exec env caller db
    {| q_table := t; q_verb := VSelect AllColumns; q_filters := fs;
       q_order := Some (column, ascending); q_returning := None;
       q_single := false |} =
  (db, {| data := DRows (merge_sort (row_before column ascending)
                           (filter (fun r => matches fs r = true)
                              (filter (fun r => owned_by (schema t) caller r = true)
                                 (rows_of db t))));
          error := None |}).
Proof. unfold exec. simpl. rewrite map_id. reflexivity. Qed.

(** For the caller's own rows the facade's filter on the owner column adds
    nothing to the policy. *)
Lemma own_rows_filter (t : Table) (userId : string) (rows : list Row) :
  filter (fun r => matches [FEq (owner_column (schema t)) (VText userId)] r = true)
    (filter (fun r => owned_by (schema t) (Some userId) r = true) rows) =
  filter (owns t userId) rows.
Proof.
  rewrite list_filter_filter. apply list_filter_iff. intros r.
  unfold owns, owned_by, matches, col. simpl.
  rewrite bool_decide_eq_true. split; [tauto|].
  intros Hown. rewrite Hown. simpl. rewrite String.eqb_refl. auto.
Qed.

(** What a list operation of a signed-in user returns. *)
Lemma run_list_op (e : Entity) (env : Env) (other : Handler) (db : DB) (userId : string) :
  run_state (backend env (Some userId) other) (list_op e userId) db =
    (db, {| data := DRows (merge_sort (row_before (order_column e) false)
                             (filter (owns (table_of e) userId)
                                (rows_of db (table_of e))));
            error := None |}).
Proof.
  rewrite <- (own_rows_filter (table_of e) userId).
  destruct e; unfold list_op;
    match goal with |- run_state _ (?f _) _ = _ => unfold f end;
    rewrite (run_one_request _ _ _ _ _ (fun a => {| data := data a; error := error a |}));
    unfold from, select_, eq_, order_, add_filter, start;
    cbn [q_table q_verb q_filters q_order q_returning q_single app];
    rewrite exec_list; reflexivity.
Qed.

(** C8: for each of the five entities, the list operation of a signed-in
    user returns, without error, exactly the records that user owns (all
    of them and no other, as a permutation), in descending order of the
    entity's column, and leaves the database as it was. *)
Theorem list_returns_own_records_descending
    (e : Entity) (env : Env) (other : Handler) (db : DB) (userId : string) :
  exists rs : list Row,
    run_state (backend env (Some userId) other) (list_op e userId) db =
      (db, {| data := DRows rs; error := None |}) /\
    rs ≡ₚ filter (owns (table_of e) userId) (rows_of db (table_of e)) /\
    StronglySorted (row_before (order_column e) false) rs.
Proof.
  eexists. split; [apply run_list_op|]. split.
  - apply merge_sort_Permutation.
  - apply StronglySorted_merge_sort; apply _.
Qed.

(* ===================================================================== *)
(** * Creating a budget *)
(* ===================================================================== *)

Lemma cents_Qeq (p q : Q) : (p == q)%Q -> cents p = cents q.
Proof.
  destruct p as [a b], q as [c d]. unfold Qeq, cents. simpl. intros H.
  assert (Hs : Z.sgn (a * 100) = Z.sgn (c * 100)).
  { rewrite !Z.sgn_mul.
    assert (Z.sgn a = Z.sgn c); [|congruence].
    assert (Hsg : Z.sgn (a * Z.pos d) = Z.sgn (c * Z.pos b)) by congruence.
    rewrite !Z.sgn_mul in Hsg. simpl in Hsg. lia. }
  rewrite Hs. f_equal.
  rewrite <- (Z.div_mul_cancel_r (2 * Z.abs (a * 100) + Z.pos b) (2 * Z.pos b) (Z.pos d))
    by lia.
  rewrite <- (Z.div_mul_cancel_r (2 * Z.abs (c * 100) + Z.pos d) (2 * Z.pos d) (Z.pos b))
    by lia.
  assert (Ha : Z.abs (a * 100) * Z.pos d = Z.abs (c * 100) * Z.pos b).
  { rewrite !Z.abs_mul.
    assert (Habs : Z.abs (a * Z.pos d) = Z.abs (c * Z.pos b)) by congruence.
    rewrite !Z.abs_mul in Habs. simpl in Habs. simpl. lia. }
  f_equal; lia.
Qed.

Lemma cents_nonpositive (q : Q) : (q <= 0)%Q -> cents q <= 0.
Proof.
  destruct q as [a b]. unfold Qle, cents. simpl. intros H.
  assert (0 <= (2 * Z.abs (a * 100) + Z.pos b) / (2 * Z.pos b)).
  { apply Z.div_pos; lia. }
  assert (Z.sgn (a * 100) <= 0) by lia. nia.
Qed.

Lemma stored_nonpositive (c : Z) : c <= 0 -> Qle_bool (Qred (c # 100)) 0 = true.
Proof.
  intros H. apply Qle_bool_iff. rewrite Qred_correct. unfold Qle. simpl. lia.
Qed.

Lemma pk_free_fresh (table : list Row) (new : Row) (id : string) :
  new !! "id" = Some (VText id) ->
  (forall r, r ∈ table -> r !! "id" <> Some (VText id)) ->
  pk_free table new = true.
Proof.
  intros Hid Hfresh. unfold pk_free. apply forallb_forall. intros r Hin.
  apply list_elem_of_In in Hin. specialize (Hfresh r Hin).
  unfold col. rewrite Hid. simpl.
  destruct (r !! "id") as [[|p|s|t]|]; simpl; try reflexivity.
  destruct (String.eqb_spec s id) as [->|_]; [contradiction|reflexivity].
Qed.

(** What inserting a budget does, check by check. *)
Lemma insert_row_budget (env : Env) (users : list string) (table : list Row)
    (userId category start_date : string) (q : Q) :
  insert_row env budgets_schema (policies budgets_schema (Some userId)) users table 0
    (new_budget userId category q start_date) =
  match to_numeric_12_2 q with
  | None => inl numeric_value_out_of_range
  | Some q' =>
    let new := stored_budget (env_uuid env 0) userId category q' start_date
                 (env_now env) (env_now env) in
    if Qle_bool q' 0 then inl check_violation
    else if negb (pk_free table new) then inl unique_violation
    else if negb (bool_decide (userId ∈ users)) then inl foreign_key_violation
    else inr new
  end.
Proof.
  unfold insert_row, coerce. cbn [numeric_12_2 budgets_schema foldr coerce_column].
  replace (new_budget userId category q start_date !! "budget_limit")
    with (Some (VNum q)) by reflexivity.
  destruct (to_numeric_12_2 q) as [q'|]; [|reflexivity].
  generalize dependent q'. intros q'.
  replace (<["budget_limit" := VNum q']> (new_budget userId category q start_date)
             ∪ defaults env budgets_schema 0)
    with (stored_budget (env_uuid env 0) userId category q' start_date
            (env_now env) (env_now env)).
  2:{ apply map_eq. intros k. unfold stored_budget, new_budget, defaults. simpl.
      rewrite lookup_union. rewrite !lookup_insert.
      repeat (case_decide; subst; try reflexivity; try discriminate).
      all: rewrite ?lookup_empty; reflexivity. }
  set (new := stored_budget _ _ _ _ _ _ _).
  unfold violation.
  replace (insert_check (policies budgets_schema (Some userId)) new) with true.
  2:{ symmetry. simpl. apply bool_decide_eq_true. reflexivity. }
  replace (existsb (fun c => is_null (col new c)) (not_null budgets_schema)) with false
    by reflexivity.
  replace (check budgets_schema new) with (negb (Qle_bool q' 0)) by reflexivity.
  cbn [negb]. destruct (Qle_bool q' 0); [reflexivity|]. cbn [negb].
  destruct (pk_free table new); [|reflexivity]. cbn [negb].
  replace (forallb (fun c => in_users users (col new c)) (references_users budgets_schema))
    with (bool_decide (userId ∈ users)).
  2:{ simpl. replace (col new "user_id") with (VText userId) by reflexivity.
      simpl. rewrite andb_true_r. reflexivity. }
  reflexivity.
Qed.

(** The object given to [addBudget] has the type its parameter declares. *)
Lemma new_budget_is_new_record (userId category start_date : string) (q : Q) :
  is_new_record budgets (new_budget userId category q start_date).
Proof.
  intros k. unfold new_budget. rewrite !lookup_insert_is_Some', lookup_empty.
  unfold fields_of, Budget_fields. rewrite !elem_of_cons, !elem_of_nil.
  split.
  - intros [<-|[<-|[<-|[<-|H]]]]; [..|destruct H as [? H]; discriminate];
      (split; [tauto|intros [H|[H|[H|[]]]]; discriminate]).
  - intros [Hin Hout].
    destruct Hin as [->|[->|[->|[->|[->|[->|[->|[]]]]]]]]; tauto.
Qed.

Lemma run_addBudget (env : Env) (caller : option string) (other : Handler)
    (db : DB) (budget : Row) :
  run_state (backend env caller other) (addBudget budget) db =
    match insert_row env budgets_schema (policies budgets_schema caller)
            (auth_users db) (rows_of db budgets) 0 budget with
    | inl e => (db, {| data := DNull; error := Some e |})
    | inr new => (set_rows db budgets (rows_of db budgets ++ [new])%list,
                  {| data := DRow new; error := None |})
    end.
Proof.
  unfold addBudget.
  rewrite (run_one_request _ _ _ _ _ (fun a => {| data := data a; error := error a |})).
  unfold exec. simpl.
  destruct (insert_row _ _ _ _ _ _ _); reflexivity.
Qed.

(** A limit that does not fit [numeric(12,2)] is refused by the column
    type before any constraint is looked at: the error is the data
    exception 22003, not a constraint violation. *)
Lemma addBudget_overflow_is_no_constraint_violation :
  let result := run_state (backend env_2000 (Some "u1") (quiet epoch))
                  (addBudget (new_budget "u1" "food" minus_ten_billion "2025-01-01"))
                  db_budget_b1 in
  (minus_ten_billion <= 0)%Q /\
  is_new_record budgets (new_budget "u1" "food" minus_ten_billion "2025-01-01") /\
  result = (db_budget_b1, {| data := DNull; error := Some numeric_value_out_of_range |}) /\
  err_code numeric_value_out_of_range = "22003" /\
  error_kind numeric_value_out_of_range <> Some ConstraintViolation.
Proof.
  split; [unfold Qle; simpl; lia|].
  split; [apply new_budget_is_new_record|].
  split; [|split; [reflexivity|discriminate]].
  cbv zeta. rewrite run_addBudget, insert_row_budget. reflexivity.
Qed.

(** C5, amended: for every signed-in user, category and start date,
    creating a budget whose limit is zero or negative and fits
    [numeric(12,2)] fails with the check-constraint violation 23514, a
    constraint violation; a limit that does not fit the column type fails
    with the numeric overflow 22003, which is not a constraint violation;
    in both cases the database stays as it was.  Creating one with the
    limit 10.50 succeeds (the user exists and the generated id is new),
    the stored limit is 10.50, and a later list of the user's budgets
    shows that row. *)
Theorem addBudget_limit_must_be_positive
    (env : Env) (other : Handler) (db : DB) (userId category start_date : string) :
  let create q :=
    run_state (backend env (Some userId) other)
      (addBudget (new_budget userId category q start_date)) db in
  (forall q : Q, (q <= 0)%Q -> Z.abs (cents q) < 10 ^ 12 ->
     create q = (db, {| data := DNull; error := Some check_violation |})) /\
  error_kind check_violation = Some ConstraintViolation /\
  (forall q : Q, 10 ^ 12 <= Z.abs (cents q) ->
     create q = (db, {| data := DNull; error := Some numeric_value_out_of_range |})) /\
  error_kind numeric_value_out_of_range = None /\
  (forall q : Q, (q == 10.5)%Q ->
     userId ∈ auth_users db ->
     (forall r, r ∈ rows_of db budgets -> r !! "id" <> Some (VText (env_uuid env 0))) ->
     exists (db' : DB) (row : Row),
       create q = (db', {| data := DRow row; error := None |}) /\
       rows_of db' budgets = (rows_of db budgets ++ [row])%list /\
       (exists stored : Q,
          row !! "budget_limit" = Some (VNum stored) /\ (stored == 10.5)%Q) /\
       forall (env' : Env) (other' : Handler),
         exists rs : list Row,
           run_state (backend env' (Some userId) other') (getBudgets userId) db' =
             (db', {| data := DRows rs; error := None |}) /\
           row ∈ rs).
Proof.
  intros create. subst create. cbv beta.
  split; [|split; [reflexivity|split; [|split; [reflexivity|]]]].
  - intros q Hq Hfits. rewrite run_addBudget, insert_row_budget.
    unfold to_numeric_12_2. rewrite (proj2 (Z.ltb_lt _ _) Hfits).
    cbv zeta. rewrite (stored_nonpositive _ (cents_nonpositive q Hq)). reflexivity.
  - intros q Hover. rewrite run_addBudget, insert_row_budget.
    unfold to_numeric_12_2. rewrite (proj2 (Z.ltb_ge _ _) Hover). reflexivity.
  - intros q Hq Huser Hfresh. rewrite run_addBudget, insert_row_budget.
    unfold to_numeric_12_2. rewrite (cents_Qeq q 10.5%Q Hq).
    change (cents 10.5%Q) with 1050. change (Z.abs 1050 <? 10 ^ 12) with true.
    change (Qred (1050 # 100)) with (21 # 2)%Q. cbv zeta.
    change (Qle_bool (21 # 2) 0) with false. cbv iota.
    set (row := stored_budget (env_uuid env 0) userId category (21 # 2) start_date
                  (env_now env) (env_now env)).
    rewrite (pk_free_fresh _ row (env_uuid env 0) eq_refl Hfresh).
    rewrite (bool_decide_eq_true_2 _ Huser). cbn [negb].
    exists (set_rows db budgets (rows_of db budgets ++ [row])%list), row.
    split; [reflexivity|]. split.
    { simpl. destruct (decide (budgets = budgets)); [reflexivity|contradiction]. }
    split.
    { exists (21 # 2)%Q. split; reflexivity. }
    intros env' other'. eexists. split; [apply (run_list_op Budget)|].
    rewrite merge_sort_Permutation. apply list_elem_of_filter. split; [reflexivity|].
    simpl. destruct (decide (budgets = budgets)); [|contradiction].
    apply elem_of_app. right. apply list_elem_of_singleton. reflexivity.
Qed.

(** A database with one user and no budget yet. *)
Lemma addBudget_limit_must_be_positive_witness :
  let env := {| env_now := 1000; env_uuid := fun _ => "b1" |} in
  let db := {| rows_of := fun _ => []; auth_users := ["u1"] |} in
  run_state (backend env (Some "u1") (quiet epoch))
    (addBudget (new_budget "u1" "food" (-5 # 1) "2025-01-01")) db =
    (db, {| data := DNull; error := Some check_violation |}) /\
  run_state (backend env (Some "u1") (quiet epoch))
    (addBudget (new_budget "u1" "food" minus_ten_billion "2025-01-01")) db =
    (db, {| data := DNull; error := Some numeric_value_out_of_range |}) /\
  (exists (db' : DB) (row : Row),
     run_state (backend env (Some "u1") (quiet epoch))
       (addBudget (new_budget "u1" "food" (1050 # 100) "2025-01-01")) db =
       (db', {| data := DRow row; error := None |}) /\
     rows_of db' budgets = [row]).
Proof.
  intros env db.
  destruct (addBudget_limit_must_be_positive env (quiet epoch) db "u1" "food" "2025-01-01")
    as (Hbad & _ & Hover & _ & Hgood).
  split; [|split].
  - apply (Hbad (-5 # 1)%Q); [unfold Qle; simpl; lia|reflexivity].
  - apply (Hover minus_ten_billion). discriminate.
  - destruct (Hgood (1050 # 100)%Q) as (db' & row & Hrun & Hrows & _).
    + reflexivity.
    + apply list_elem_of_singleton. reflexivity.
    + intros r Hin. inversion Hin.
    + exists db', row. split; [exact Hrun|exact Hrows].
Defined.

(* ===================================================================== *)
(** * Monthly data *)
(* ===================================================================== *)

Lemma exec_monthly_query (env : Env) (caller : option string) (db : DB)
    (t : Table) (userId : string) (now : JsDate) :
  exec env caller db (monthly_query t userId now) =
    (db, {| data := DRows (monthly_rows t caller userId (sixMonthsAgo_date now)
                             (rows_of db t));
            error := None |}).
Proof.
  unfold exec, monthly_query, monthly_rows, from. simpl.
  do 4 f_equal.
  rewrite (list_filter_filter (on_or_after (sixMonthsAgo_date now))).
  apply list_filter_iff. intros r.
  unfold on_or_after. rewrite andb_true_r, andb_true_iff. tauto.
Qed.

Lemma run_getMonthlyData (env : Env) (caller : option string) (other : Handler)
    (db : DB) (userId : string) :
  let cutoff := sixMonthsAgo_date (other NewDate) in
  run_state (backend env caller other) (getMonthlyData userId) db =
    (db, {| incomeData := DRows (monthly_rows income caller userId cutoff (rows_of db income));
            expenseData := DRows (monthly_rows expenses caller userId cutoff (rows_of db expenses));
            incomeError := None; expenseError := None |}).
Proof.
  cbv zeta. unfold getMonthlyData.
  cbn [run_state mbind mret Prog_bind Prog_ret bind call backend].
  rewrite !exec_monthly_query. reflexivity.
Qed.

Lemma filter_none {A : Type} (P : A -> Prop) `{!forall x, Decision (P x)} (l : list A) :
  (forall x, x ∈ l -> ~ P x) -> filter P l = [].
Proof.
  induction l as [|a l IH]; intros Hnone; [reflexivity|].
  rewrite filter_cons. destruct (decide (P a)) as [Hp|_].
  - exfalso. apply (Hnone a); [left|exact Hp].
  - apply IH. intros x Hin. apply Hnone. right. exact Hin.
Qed.

Lemma monthly_rows_none (t : Table) (caller : option string)
    (userId cutoff : string) (rows : list Row) :
  (forall r, r ∈ rows -> r !! "user_id" <> Some (VText userId)) ->
  monthly_rows t caller userId cutoff rows = [].
Proof.
  intros Hnone. unfold monthly_rows.
  replace (filter (fun r => value_eqb (col r "user_id") (VText userId) = true)
             (filter (fun r => owned_by (schema t) caller r = true) rows))
    with (@nil Row); [reflexivity|].
  symmetry. apply filter_none. intros r Hin.
  apply list_elem_of_filter in Hin as [_ Hin]. specialize (Hnone r Hin).
  unfold col. destruct (r !! "user_id") as [[|q|s|z]|]; simpl; try discriminate.
  destruct (String.eqb_spec s userId) as [->|_]; [contradiction|discriminate].
Qed.

(** The query has no upper bound: a record dated after today is not of
    the trailing six months, and [getMonthlyData] returns it. *)
Lemma getMonthlyData_returns_later_dates :
  let now := mid_june_2025 in
  let out := snd (run_state (backend env_0 (Some "u1") (quiet now))
                    (getMonthlyData "u1") db_income_of_2099) in
  today now = "2025-06-15" /\
  sixMonthsAgo_date now = "2024-12-15" /\
  incomeData out =
    DRows [<["amount" := VNum 100]> (<["date" := VText "2099-01-01"]> ∅)] /\
  in_trailing_six_months now "2099-01-01" = false.
Proof. repeat split; reflexivity. Qed.

(** C3, amended: [getMonthlyData] sends exactly two queries, one on
    [income] and one on [expenses], neither depending on the other's
    answer; each selects amount and date of the user's rows dated on or
    after the day six months before the current time, with no upper
    bound; the two answers come back side by side, each with its own
    error indicator; against the database both succeed, and for a user
    with no records both lists are empty. *)
Theorem getMonthlyData_two_queries_from_cutoff
    (env : Env) (caller : option string) (other : Handler) (db : DB) (userId : string) :
  let now := other NewDate in
  let cutoff := sixMonthsAgo_date now in
  fst (run other (getMonthlyData userId)) =
    [NewDate; Rest (monthly_query income userId now);
     Rest (monthly_query expenses userId now)] /\
  (forall t : Table,
     monthly_query t userId now =
       {| q_table := t; q_verb := VSelect (Cols ["amount"; "date"]);
          q_filters := [FEq "user_id" (VText userId); FGte "date" (VText cutoff)];
          q_order := None; q_returning := None; q_single := false |}) /\
  (forall (tr : list Obs) (r : MonthlyData),
     traces (getMonthlyData userId) tr r ->
     exists (now' : JsDate) (income_r expense_r : Reply Data),
       backend_requests tr = [Rest (monthly_query income userId now');
                              Rest (monthly_query expenses userId now')] /\
       r = {| incomeData := data income_r; expenseData := data expense_r;
              incomeError := error income_r; expenseError := error expense_r |}) /\
  run_state (backend env caller other) (getMonthlyData userId) db =
    (db, {| incomeData := DRows (monthly_rows income caller userId cutoff (rows_of db income));
            expenseData := DRows (monthly_rows expenses caller userId cutoff (rows_of db expenses));
            incomeError := None; expenseError := None |}) /\
  ((forall r, r ∈ rows_of db income -> r !! "user_id" <> Some (VText userId)) ->
   (forall r, r ∈ rows_of db expenses -> r !! "user_id" <> Some (VText userId)) ->
   run_state (backend env caller other) (getMonthlyData userId) db =
     (db, {| incomeData := DRows []; expenseData := DRows [];
             incomeError := None; expenseError := None |})).
Proof.
  intros now cutoff. split; [|split; [|split; [|split]]].
  - unfold getMonthlyData. cbn [run mbind mret Prog_bind Prog_ret bind call fst].
    reflexivity.
  - intros t. reflexivity.
  - intros tr r H. apply getMonthlyData_traces in H as (now' & a1 & a2 & -> & ->).
    exists now', a1, a2. split; reflexivity.
  - apply run_getMonthlyData.
  - intros Hi He. rewrite run_getMonthlyData. cbv zeta.
    rewrite (monthly_rows_none income), (monthly_rows_none expenses) by assumption.
    reflexivity.
Qed.

(** A user without records next to another user's income. *)
Lemma getMonthlyData_two_queries_from_cutoff_witness :
  run_state (backend env_0 (Some "u2") (quiet mid_june_2025))
    (getMonthlyData "u2") db_income_of_2099 =
  (db_income_of_2099,
   {| incomeData := DRows []; expenseData := DRows [];
      incomeError := None; expenseError := None |}).
Proof.
  destruct (getMonthlyData_two_queries_from_cutoff env_0 (Some "u2")
              (quiet mid_june_2025) db_income_of_2099 "u2") as (_ & _ & _ & _ & H).
  apply H.
  - intros r Hin. apply list_elem_of_singleton in Hin. subst r. discriminate.
  - intros r Hin. inversion Hin.
Defined.

(* ===================================================================== *)
(** * Writes: what a statement may touch *)
(* ===================================================================== *)

Lemma violation_none (sch : Schema) (chk : Row -> bool) (new : Row) :
  violation sch chk new = None -> chk new = true.
Proof. unfold violation. destruct (chk new); [reflexivity|discriminate]. Qed.

Lemma owned_by_owns (t : Table) (uid : string) (r : Row) :
  owned_by (schema t) (Some uid) r = true <-> owns t uid r.
Proof. unfold owned_by, owns. apply bool_decide_eq_true. Qed.

Lemma owns_one_user (t : Table) (A B : string) (r : Row) :
  A <> B -> owns t A r -> ~ owns t B r.
Proof. unfold owns. intros Hne HA HB. congruence. Qed.

Lemma insert_row_checked (env : Env) (sch : Schema) (pol : Policies)
    (users : list string) (table : list Row) (i : nat) (payload new : Row) :
  insert_row env sch pol users table i payload = inr new ->
  insert_check pol new = true.
Proof.
  unfold insert_row. destruct (coerce sch payload) as [e|p']; [discriminate|].
  cbv zeta. destruct (violation _ _ _) eqn:Hv; [discriminate|].
  repeat (match goal with |- context [if ?b then _ else _] => destruct b end;
          try discriminate).
  intros [= <-]. exact (violation_none _ _ _ Hv).
Qed.

Lemma insert_rows_appends (env : Env) (sch : Schema) (pol : Policies)
    (users : list string) (payloads : list Row) :
  forall (table : list Row) (i : nat) (table' news : list Row),
    insert_rows env sch pol users table i payloads = inr (table', news) ->
    table' = (table ++ news)%list /\ Forall (fun r => insert_check pol r = true) news.
Proof.
  induction payloads as [|p ps IH]; intros table i table' news; simpl.
  - intros [= <- <-]. rewrite app_nil_r. auto.
  - destruct (insert_row _ _ _ _ _ _ _) as [e|new] eqn:Hrow; [discriminate|].
    destruct (insert_rows _ _ _ _ _ _ _) as [e|[t' ns]] eqn:Hrest; [discriminate|].
    intros [= <- <-]. apply IH in Hrest as [-> Hall]. split.
    + rewrite <- app_assoc. reflexivity.
    + constructor; [exact (insert_row_checked _ _ _ _ _ _ _ _ Hrow)|exact Hall].
Qed.

Lemma update_row_checked (env : Env) (sch : Schema) (pol : Policies)
    (users : list string) (values old new : Row) :
  update_row env sch pol users values old = inr new ->
  update_check pol new = true.
Proof.
  unfold update_row. destruct (coerce sch values) as [e|v']; [discriminate|].
  cbv zeta. destruct (updated_at_trigger sch).
  all: destruct (violation _ _ _) eqn:Hv; [discriminate|].
  all: repeat (match goal with |- context [if ?b then _ else _] => destruct b end;
               try discriminate).
  all: intros [= <-]; exact (violation_none _ _ _ Hv).
Qed.

(** An UPDATE replaces target rows by rows that pass the policy's check
    and leaves every other row where it is. *)
Lemma update_rows_frame (env : Env) (sch : Schema) (pol : Policies)
    (users : list string) (values : Row) (target : Row -> bool)
    (P : Row -> Prop) `{!forall r, Decision (P r)} :
  (forall r, target r = true -> ~ P r) ->
  (forall r, update_check pol r = true -> ~ P r) ->
  forall rows rows' news : list Row,
    update_rows env sch pol users values target rows = inr (rows', news) ->
    filter P rows' = filter P rows /\
    Forall (fun r => update_check pol r = true /\ r ∈ rows') news.
Proof.
  intros Htarget Hcheck. induction rows as [|r rest IH]; intros rows' news; simpl.
  - intros [= <- <-]. auto.
  - destruct (target r) eqn:Ht.
    + destruct (update_row _ _ _ _ _ _) as [e|new] eqn:Hrow; [discriminate|].
      destruct (update_rows _ _ _ _ _ _ _) as [e|[rest' ns]] eqn:Hrest; [discriminate|].
      intros [= <- <-]. destruct (IH _ _ eq_refl) as [Hf Hall].
      pose proof (update_row_checked _ _ _ _ _ _ _ Hrow) as Hnew. split.
      * rewrite !filter_cons.
        destruct (decide (P new)) as [Hp|_]; [exfalso; exact (Hcheck _ Hnew Hp)|].
        destruct (decide (P r)) as [Hp|_]; [exfalso; exact (Htarget _ Ht Hp)|].
        exact Hf.
      * constructor; [split; [exact Hnew|left]|].
        eapply Forall_impl; [exact Hall|]. intros x [? ?]. split; [auto|right; auto].
    + destruct (update_rows _ _ _ _ _ _ _) as [e|[rest' ns]] eqn:Hrest; [discriminate|].
      intros [= <- <-]. destruct (IH _ _ eq_refl) as [Hf Hall]. split.
      * rewrite !filter_cons, Hf. reflexivity.
      * eapply Forall_impl; [exact Hall|]. intros x [? ?]. split; [auto|right; auto].
Qed.

Lemma filter_filter_out {A : Type} (P : A -> Prop) (target : A -> bool)
    `{!forall x, Decision (P x)} (l : list A) :
  (forall x, target x = true -> ~ P x) ->
  filter P (filter (fun x => target x = false) l) = filter P l.
Proof.
  intros Ht. rewrite list_filter_filter. apply list_filter_iff. intros x.
  split; [tauto|]. intros Hp. split; [exact Hp|].
  destruct (target x) eqn:E; [exfalso; exact (Ht _ E Hp)|reflexivity].
Qed.

Lemma set_rows_same (db : DB) (t : Table) (rows : list Row) :
  rows_of (set_rows db t rows) t = rows.
Proof. simpl. destruct (decide (t = t)); [reflexivity|contradiction]. Qed.


(** What a statement hands back is among the rows it wrote, and the
    database is the one before or the one after the statement. *)
Lemma finish_cases (q : Query) (db db' : DB) (written : list Row) :
  (fst (finish q db db' written) = db' \/
   fst (finish q db db' written) = db /\
   data (snd (finish q db db' written)) = DNull) /\
  forall row, row ∈ data_rows (data (snd (finish q db db' written))) ->
    exists cols r, r ∈ written /\ row = project cols r.
Proof.
  unfold finish. destruct (q_returning q) as [cols|]; simpl.
  2:{ split; [auto|]. intros row Hin. inversion Hin. }
  destruct (q_single q).
  - destruct (map (project cols) written) as [|r [|r' l]] eqn:Hout; simpl.
    + split; [auto|]. intros row Hin. inversion Hin.
    + split; [auto|]. intros row Hin. apply list_elem_of_singleton in Hin. subst row.
      assert (Hr : r ∈ map (project cols) written) by (rewrite Hout; left).
      apply list_elem_of_fmap in Hr as (x & -> & Hx). eauto.
    + split; [auto|]. intros row Hin. inversion Hin.
  - simpl. split; [auto|]. intros row Hin.
    apply list_elem_of_fmap in Hin as (x & -> & Hx). eauto.
Qed.

Section Isolation.

Variables (env : Env) (A : string).

(** One query of [A]: every row it returns is a projection of a row [A]
    owns, and no row of another user is added, changed or removed. *)
Lemma exec_isolation (db : DB) (q : Query) :
  (forall row, row ∈ data_rows (data (snd (exec env (Some A) db q))) ->
     exists cols r,
       (r ∈ rows_of db (q_table q) \/
        r ∈ rows_of (fst (exec env (Some A) db q)) (q_table q)) /\
       owns (q_table q) A r /\ row = project cols r) /\
  (forall t (P : Row -> Prop) `{!forall r, Decision (P r)},
     foreign A t P ->
     filter P (rows_of (fst (exec env (Some A) db q)) t) = filter P (rows_of db t)).
Proof.
  unfold exec.
  set (t := q_table q). set (sch := schema t).
  set (pol := policies sch (Some A)). set (rows := rows_of db t).
  assert (Hset : forall rows' t' (P : Row -> Prop) `{!forall r, Decision (P r)},
             (t' = t -> filter P rows' = filter P rows) ->
             filter P (rows_of (set_rows db t rows') t') = filter P (rows_of db t')).
  { intros rows' t' P ? H. simpl. destruct (decide (t' = t)) as [->|]; auto. }
  destruct (q_verb q) as [cols|payloads|values|].
  - (* SELECT *)
    split; [|intros; destruct (q_single q); [destruct (map _ _) as [|? [|? ?]]|]; reflexivity].
    set (ordered := match q_order q with
                    | Some (c, asc) => merge_sort (row_before c asc) _
                    | None => _
                    end).
    assert (Hord : forall r, r ∈ ordered -> r ∈ rows /\ owns t A r).
    { intros r Hin. subst ordered.
      assert (Hin' : r ∈ filter (fun r => matches (q_filters q) r = true)
                          (filter (fun r => select_using pol r = true) rows)).
      { destruct (q_order q) as [[c asc]|]; [|exact Hin].
        rewrite merge_sort_Permutation in Hin. exact Hin. }
      apply list_elem_of_filter in Hin' as [_ Hin'].
      apply list_elem_of_filter in Hin' as [Hown Hin'].
      split; [exact Hin'|]. apply owned_by_owns. exact Hown. }
    assert (Hout : forall row, row ∈ map (project cols) ordered ->
              exists cols r, (r ∈ rows \/ r ∈ rows) /\ owns t A r /\ row = project cols r).
    { intros row Hin. apply list_elem_of_fmap in Hin as (r & -> & Hr).
      destruct (Hord r Hr). eauto 6. }
    destruct (q_single q); simpl.
    + destruct (map (project cols) ordered) as [|r [|r' l]]; simpl;
        intros row Hin; try (inversion Hin; fail).
      apply list_elem_of_singleton in Hin. subst row. apply Hout. left.
    + exact Hout.
  - (* INSERT *)
    destruct (insert_rows _ _ _ _ _ _ _) as [e|[rows' news]] eqn:Hins.
    { split; [intros row Hin; inversion Hin|reflexivity]. }
    apply insert_rows_appends in Hins as [-> Hall].
    destruct (finish_cases q db (set_rows db t (rows ++ news)%list) news)
      as [Hdb Hdata].
    split.
    + intros row Hin. destruct (Hdata row Hin) as (cols & r & Hr & ->).
      exists cols, r. rewrite Forall_forall in Hall. split; [|split; [|reflexivity]].
      * destruct Hdb as [-> | [_ Hnull]]; [|rewrite Hnull in Hin; inversion Hin].
        right. rewrite set_rows_same. apply elem_of_app. right. exact Hr.
      * apply owned_by_owns. apply Hall. exact Hr.
    + intros t' P ? Hforeign. destruct Hdb as [-> | [-> _]]; [|reflexivity].
      apply Hset. intros ->. rewrite filter_app.
      rewrite (filter_none P news), app_nil_r; [reflexivity|].
      rewrite Forall_forall in Hall. intros r Hr. apply Hforeign.
      apply owned_by_owns, Hall, Hr.
  - (* UPDATE *)
    destruct (bool_decide (values = ∅)).
    { destruct (finish_cases q db db []) as [Hdb Hdata]. split.
      - intros row Hin. destruct (Hdata row Hin) as (? & ? & Hr & _). inversion Hr.
      - intros. destruct Hdb as [-> | [-> _]]; reflexivity. }
    destruct (update_rows _ _ _ _ _ _ _) as [e|[rows' news]] eqn:Hupd.
    { split; [intros row Hin; inversion Hin|reflexivity]. }
    destruct (pk_unique rows' news).
    2:{ split; [intros row Hin; inversion Hin|reflexivity]. }
    destruct (finish_cases q db (set_rows db t rows') news) as [Hdb Hdata].
    split.
    + intros row Hin. destruct (Hdata row Hin) as (cols & r & Hr & ->).
      exists cols, r.
      destruct (update_rows_frame env sch pol (auth_users db) values _ (fun _ => False)
                  (fun _ _ H => H) (fun _ _ H => H) _ _ _ Hupd) as [_ Hall].
      rewrite Forall_forall in Hall. destruct (Hall r Hr) as [Hown Hr'].
      split; [|split; [|reflexivity]].
      * destruct Hdb as [-> | [_ Hnull]]; [|rewrite Hnull in Hin; inversion Hin].
        right. rewrite set_rows_same. exact Hr'.
      * apply owned_by_owns. exact Hown.
    + intros t' P ? Hforeign. destruct Hdb as [-> | [-> _]]; [|reflexivity].
      apply Hset. intros ->.
      refine (proj1 (update_rows_frame env sch pol (auth_users db) values _ P _ _ _ _ _ Hupd)).
      * intros r Ht. apply Hforeign, owned_by_owns.
        apply andb_true_iff in Ht as [Ht _]. apply andb_true_iff in Ht as [Ht _].
        exact Ht.
      * intros r Hc. apply Hforeign, owned_by_owns. exact Hc.
  - (* DELETE *)
    cbv zeta.
    set (target := fun r : Row =>
           delete_using pol r && select_using pol r && matches (q_filters q) r).
    assert (Htarget : forall r, target r = true -> owns t A r).
    { intros r Ht. apply owned_by_owns.
      apply andb_true_iff in Ht as [Ht _]. apply andb_true_iff in Ht as [Ht _].
      exact Ht. }
    match goal with
    | |- context [finish q db ?d ?w] => destruct (finish_cases q db d w) as [Hdb Hdata]
    end.
    split.
    + intros row Hin. destruct (Hdata row Hin) as (cols & r & Hr & ->).
      apply list_elem_of_filter in Hr as [Ht Hr]. exists cols, r. auto.
    + intros t' P ? Hforeign. destruct Hdb as [-> | [-> _]]; [|reflexivity].
      apply Hset. intros ->. apply (filter_filter_out P target).
      intros r Ht. apply Hforeign, Htarget, Ht.
Qed.

End Isolation.

Section FacadeIsolation.

Variables (env : Env) (other : Handler) (A : string).

(** Whatever a program of [A] does, the rows of the other users stay. *)
Lemma run_state_frame {R : Type} (p : Prog R) :
  forall (db : DB) (t : Table) (P : Row -> Prop) `{!forall r, Decision (P r)},
    foreign A t P ->
    filter P (rows_of (fst (run_state (backend env (Some A) other) p db)) t) =
    filter P (rows_of db t).
Proof.
  induction p as [r|c k IH]; intros db t P ? Hforeign; [reflexivity|].
  cbn [run_state].
  destruct (backend env (Some A) other c db) as [db1 a] eqn:Hstep.
  rewrite (IH a db1 t P _ Hforeign).
  destruct c; try (injection Hstep as <- _; reflexivity).
  simpl in Hstep.
  pose proof (proj2 (exec_isolation env A db q) t P _ Hforeign) as Hq.
  rewrite Hstep in Hq. exact Hq.
Qed.

(** The rows a one-request function returns. *)
Lemma one_request_rows (db : DB) (q : Query) (row : Row) :
  row ∈ data_rows (data (snd (exec env (Some A) db q))) ->
  exists t cols r,
    (r ∈ rows_of db t \/ r ∈ rows_of (fst (exec env (Some A) db q)) t) /\
    owns t A r /\ row = project cols r.
Proof.
  intros Hin. destruct (proj1 (exec_isolation env A db q) row Hin) as (cols & r & H).
  exists (q_table q), cols, r. exact H.
Qed.

Lemma monthly_rows_owned (t : Table) (userId cutoff : string) (rows : list Row) (row : Row) :
  row ∈ monthly_rows t (Some A) userId cutoff rows ->
  exists r, r ∈ rows /\ owns t A r /\ row = project (Cols ["amount"; "date"]) r.
Proof.
  unfold monthly_rows. intros Hin.
  apply list_elem_of_fmap in Hin as (r & -> & Hr).
  apply list_elem_of_filter in Hr as [_ Hr].
  apply list_elem_of_filter in Hr as [_ Hr].
  apply list_elem_of_filter in Hr as [Hown Hr].
  exists r. split; [exact Hr|]. split; [|reflexivity].
  apply owned_by_owns. exact Hown.
Qed.

End FacadeIsolation.

(** Reduce the run of a facade function that sends one table request. *)
Ltac run_one :=
  cbn [invoke list_op create_op update_op delete_op];
  unfold getUserProfile, updateUserProfile,
    getIncome, addIncome, updateIncome, deleteIncome,
    getExpenses, addExpense, updateExpense, deleteExpense,
    getInvestments, addInvestment, updateInvestment, deleteInvestment,
    getSavingsGoals, addSavingsGoal, updateSavingsGoal, deleteSavingsGoal,
    getBudgets, addBudget, updateBudget, deleteBudget,
    getExpensesByCategory;
  cbn [fmap Prog_fmap run_state mbind mret Prog_bind Prog_ret bind call backend].

(** C1: whatever facade call user [A] makes, every row it returns is
    (a projection of) a row [A] owns, not one of [B], and the rows [B]
    owns are after the call what they were before it, in every table:
    none is returned, changed, removed or added. *)
Theorem facade_isolates_users
    (env : Env) (other : Handler) (db : DB) (A B : string) (c : FacadeCall) :
  A <> B ->
  let result := run_state (backend env (Some A) other) (invoke c) db in
  (forall row, row ∈ returned_rows (snd result) ->
     exists t cols r,
       (r ∈ rows_of db t \/ r ∈ rows_of (fst result) t) /\
       owns t A r /\ ~ owns t B r /\ row = project cols r) /\
  (forall t, filter (owns t B) (rows_of (fst result) t) = filter (owns t B) (rows_of db t)).
Proof.
  intros Hne result. split.
  - assert (Hgoal : forall row, row ∈ returned_rows (snd result) ->
              exists t cols r,
                (r ∈ rows_of db t \/ r ∈ rows_of (fst result) t) /\
                owns t A r /\ row = project cols r).
    2:{ intros row Hin. destruct (Hgoal row Hin) as (t & cols & r & Hr & Hown & ->).
        exists t, cols, r. eauto using owns_one_user. }
    subst result.
    destruct c as [? ? ? ?| |? ?| | |u|u v|e u|e v|e i v|e i|u|u];
      try (intros row Hin; simpl in Hin;
           repeat match type of Hin with
                  | context [other ?c] => destruct (other c); simpl in Hin
                  end;
           inversion Hin; fail);
      try destruct e.
    all: try (run_one;
              match goal with
              | |- context [exec ?en (Some ?a) ?d ?q] =>
                  pose proof (one_request_rows en a d q) as Hq;
                  destruct (exec en (Some a) d q) as [db1 r1]
              end;
              cbn [fst snd returned_rows data] in *; first [exact Hq | intros row Hin; inversion Hin]).
    (* getMonthlyData *)
    cbn [invoke]. unfold getMonthlyData.
    cbn [fmap Prog_fmap run_state mbind mret Prog_bind Prog_ret bind call backend].
    rewrite !exec_monthly_query. cbn [fst snd returned_rows incomeData expenseData data_rows].
    intros row Hin. apply elem_of_app in Hin as [Hin|Hin];
      apply monthly_rows_owned in Hin as (r & Hr & Hown & ->); eauto 8.
  - intros t. apply run_state_frame. intros r HA. exact (owns_one_user t A B r Hne HA).
Qed.

(** Two users: [u1] tries to update, then to delete, the budget of [u2];
    it gets no row, and the budget of [u2] is still there. *)
Lemma facade_isolates_users_witness :
  let try_update :=
    run_state (backend env_2000 (Some "u1") (quiet epoch))
      (invoke (CallUpdate Budget "b2" {["category" := VText "mine"]})) db_two_users in
  let try_delete :=
    run_state (backend env_2000 (Some "u1") (quiet epoch))
      (invoke (CallDelete Budget "b2")) db_two_users in
  filter (owns budgets "u2") (rows_of (fst try_update) budgets) = [budget_b2] /\
  filter (owns budgets "u2") (rows_of (fst try_delete) budgets) = [budget_b2] /\
  returned_rows (snd try_update) = [].
Proof.
  intros try_update try_delete.
  assert (Hne : "u1" <> "u2") by discriminate.
  split; [|split].
  - exact (proj2 (facade_isolates_users env_2000 (quiet epoch) db_two_users "u1" "u2"
                    (CallUpdate Budget "b2" {["category" := VText "mine"]}) Hne) budgets).
  - exact (proj2 (facade_isolates_users env_2000 (quiet epoch) db_two_users "u1" "u2"
                    (CallDelete Budget "b2") Hne) budgets).
  - reflexivity.
Defined.

(* ===================================================================== *)
(** * Updating a record *)
(* ===================================================================== *)



Lemma coerce_column_keeps_other (c k : string) (acc : Error + Row) (r' : Row) :
  coerce_column c acc = inr r' -> c <> k ->
  exists r, acc = inr r /\ r' !! k = r !! k.
Proof.
  destruct acc as [e|r]; simpl; [discriminate|].
  destruct (r !! c) as [[|q|s|t]|] eqn:Hc; try discriminate;
    try (intros [= <-]; eauto; fail).
  destruct (to_numeric_12_2 q); [|discriminate].
  intros [= <-] Hne. exists r. split; [reflexivity|].
  apply lookup_insert_ne. exact Hne.
Qed.

Lemma coerce_keeps_other (sch : Schema) (values values' : Row) (k : string) :
  coerce sch values = inr values' -> k ∉ numeric_12_2 sch -> values' !! k = values !! k.
Proof.
  unfold coerce. generalize (numeric_12_2 sch) as cs. intros cs. revert values'.
  induction cs as [|c cs IH]; simpl; intros values'.
  - intros [= <-]. auto.
  - intros H Hout. apply not_elem_of_cons in Hout as [Hne Hout].
    apply (coerce_column_keeps_other c k) in H as (r & Hr & Hsame); [|congruence].
    rewrite Hsame. auto.
Qed.




Section UpdateRows.

Variables (env : Env) (sch : Schema) (pol : Policies) (users : list string)
          (values : Row) (target : Row -> bool).



End UpdateRows.








(* ===================================================================== *)
(** * Further properties: deleting *)
(* ===================================================================== *)

Lemma matches_id (id : string) (r : Row) :
  matches [FEq "id" (VText id)] r = true <-> r !! "id" = Some (VText id).
Proof.
  unfold matches, col. simpl. rewrite andb_true_r.
  destruct (r !! "id") as [[|q|s|z]|]; simpl; try (split; [discriminate|congruence]).
  rewrite String.eqb_eq. split; congruence.
Qed.

Lemma run_delete_op (env : Env) (caller : option string) (other : Handler)
    (db : DB) (e : Entity) (id : string) :
  run_state (backend env caller other) (delete_op e id) db =
    (fst (exec env caller db (delete_query (table_of e) id)),
     {| only_error := error (snd (exec env caller db (delete_query (table_of e) id))) |}).
Proof.
  destruct e; unfold delete_op;
    match goal with |- run_state _ (?f _) _ = _ => unfold f end;
    apply (run_one_request _ _ _ _ _ (fun a => {| only_error := error a |})).
Qed.

Lemma exec_delete_query (env : Env) (A : string) (db : DB) (t : Table) (id : string) :
  exec env (Some A) db (delete_query t id) =
    (set_rows db t (filter (fun r => ~ own_with_id t A id r) (rows_of db t)),
     {| data := DNull; error := None |}).
Proof.
  unfold exec, delete_query, finish. cbn [q_table q_verb q_filters q_returning].
  cbv zeta. do 2 f_equal. apply list_filter_iff. intros r.
  unfold own_with_id. rewrite <- matches_id, <- owned_by_owns.
  cbn [policies delete_using select_using].
  destruct (owned_by (schema t) (Some A) r), (matches [FEq "id" (VText id)] r);
    simpl; intuition congruence.
Qed.



(** X2: after a delete, the list of the user who deleted shows no record
    with that id. *)
Theorem delete_then_list_lacks_id
    (e : Entity) (env env' : Env) (other other' : Handler) (db : DB) (A id : string) :
  let db' := fst (run_state (backend env (Some A) other) (delete_op e id) db) in
  exists rs : list Row,
    run_state (backend env' (Some A) other') (list_op e A) db' =
      (db', {| data := DRows rs; error := None |}) /\
    forall r, r ∈ rs -> r !! "id" <> Some (VText id).
Proof.
  intros db'. eexists. split; [apply run_list_op|].
  intros r Hin. rewrite merge_sort_Permutation in Hin.
  apply list_elem_of_filter in Hin as [Hown Hin].
  subst db'. rewrite run_delete_op, exec_delete_query in Hin. cbn [fst] in Hin.
  rewrite set_rows_same in Hin. apply list_elem_of_filter in Hin as [Hnot _].
  intros Hid. apply Hnot. split; assumption.
Qed.

(* ===================================================================== *)
(** * Further properties: reading *)
(* ===================================================================== *)

Lemma project_lookup (cs : list string) (r : Row) (k : string) :
  project (Cols cs) r !! k = if decide (k ∈ cs) then r !! k else None.
Proof.
  unfold project. destruct (decide (k ∈ cs)) as [Hin|Hout].
  - destruct (r !! k) as [v|] eqn:Hk.
    + apply map_lookup_filter_Some. auto.
    + apply map_lookup_filter_None. left. exact Hk.
  - apply map_lookup_filter_None. right. intros v _. exact Hout.
Qed.

(** X3: listing the records of another user gives an empty list and no
    error, and changes nothing. *)
Theorem list_of_another_user_is_empty
    (e : Entity) (env : Env) (other : Handler) (db : DB) (A B : string) :
  A <> B ->
  run_state (backend env (Some A) other) (list_op e B) db =
    (db, {| data := DRows []; error := None |}).
Proof.
  intros Hne.
  assert (Hempty : forall rows : list Row,
            filter (fun r => matches [FEq (owner_column (schema (table_of e))) (VText B)] r = true)
              (filter (fun r => owned_by (schema (table_of e)) (Some A) r = true) rows) = []).
  { intros rows. apply filter_none. intros r Hin.
    apply list_elem_of_filter in Hin as [Hown _].
    apply bool_decide_eq_true in Hown. unfold matches. cbn [forallb].
    unfold col. rewrite Hown. simpl.
    destruct (String.eqb_spec A B) as [->|_]; [contradiction|discriminate]. }
  replace (@nil Row)
    with (merge_sort (row_before (order_column e) false)
            (filter (fun r => matches [FEq (owner_column (schema (table_of e))) (VText B)] r = true)
               (filter (fun r => owned_by (schema (table_of e)) (Some A) r = true)
                  (rows_of db (table_of e)))))
    by (rewrite Hempty; reflexivity).
  destruct e; unfold list_op;
    match goal with |- run_state _ (?f _) _ = _ => unfold f end;
    rewrite (run_one_request _ _ _ _ _ (fun a => {| data := data a; error := error a |}));
    unfold from, select_, eq_, order_, add_filter, start;
    cbn [q_table q_verb q_filters q_order q_returning q_single app];
    rewrite exec_list; reflexivity.
Qed.

Lemma list_of_another_user_is_empty_witness :
  run_state (backend env_2000 (Some "u1") (quiet epoch)) (list_op Budget "u2") db_two_users =
    (db_two_users, {| data := DRows []; error := None |}).
Proof.
  apply list_of_another_user_is_empty. discriminate.
Defined.

(** X4: [getExpensesByCategory] returns one entry per expense of the
    signed-in user, in the order of the table and not summed up; an
    entry carries the category and the amount of its expense and no
    other field. *)
Theorem getExpensesByCategory_one_entry_per_expense
    (env : Env) (other : Handler) (db : DB) (userId : string) :
  let own := filter (owns expenses userId) (rows_of db expenses) in
  run_state (backend env (Some userId) other) (getExpensesByCategory userId) db =
    (db, {| data := DRows (map (project (Cols ["category"; "amount"])) own);
            error := None |}) /\
  List.length (map (project (Cols ["category"; "amount"])) own) = List.length own /\
  (forall (r : Row) (k : string),
     project (Cols ["category"; "amount"]) r !! k =
       if decide (k ∈ ["category"; "amount"]) then r !! k else None).
Proof.
  intros own. split; [|split].
  - unfold getExpensesByCategory.
    rewrite (run_one_request _ _ _ _ _ (fun a => {| data := data a; error := error a |})).
    unfold exec, from, select_, eq_, add_filter, start.
    cbn [q_table q_verb q_filters q_order q_returning q_single app fst snd data error].
    cbv zeta. do 4 f_equal. apply (own_rows_filter expenses userId).
  - apply length_map.
  - intros r k. apply project_lookup.
Qed.

(* ===================================================================== *)
(** * Further properties: the profile *)
(* ===================================================================== *)

(** X5: [getUserProfile] gives the profile row of the signed-in user when
    there is exactly one; in every other case, and always when it is
    asked for the profile of another user, it gives no data and the
    not-found error of [.single()]. *)
Theorem getUserProfile_own_or_not_found
    (env : Env) (other : Handler) (db : DB) (A userId : string) :
  let found := filter (own_with_id user_profiles A userId) (rows_of db user_profiles) in
  run_state (backend env (Some A) other) (getUserProfile userId) db =
    (db, match found with
         | [profile] => {| data := DRow profile; error := None |}
         | _ => {| data := DNull; error := Some not_single_row |}
         end) /\
  (A <> userId -> found = []) /\
  error_kind not_single_row = Some NotFound.
Proof.
  intros found. split; [|split; [|reflexivity]].
  - unfold getUserProfile.
    rewrite (run_one_request _ _ _ _ _ (fun a => {| data := data a; error := error a |})).
    unfold exec, from, select_, eq_, single_, add_filter, start.
    cbn [q_table q_verb q_filters q_order q_returning q_single app].
    cbv zeta. rewrite map_id.
    replace (filter (fun r => matches [FEq "id" (VText userId)] r = true)
               (filter (fun r => select_using (policies (schema user_profiles) (Some A)) r = true)
                  (rows_of db user_profiles)))
      with found.
    + destruct found as [|p [|p' l]]; reflexivity.
    + subst found. rewrite list_filter_filter. apply list_filter_iff. intros r.
      unfold own_with_id. rewrite matches_id.
      cbn [policies select_using]. rewrite (owned_by_owns user_profiles). tauto.
  - intros Hne. apply filter_none. intros r _ [Hown Hid].
    unfold owns in Hown. simpl in Hown. congruence.
Qed.

Lemma getUserProfile_own_or_not_found_witness :
  filter (own_with_id user_profiles "u1" "u2") (rows_of db_two_users user_profiles) = [].
Proof.
  apply (getUserProfile_own_or_not_found env_2000 (quiet epoch) db_two_users "u1" "u2").
  discriminate.
Defined.

(* ===================================================================== *)
(** * Further properties: creating *)
(* ===================================================================== *)

Lemma run_create_op (env : Env) (caller : option string) (other : Handler)
    (db : DB) (e : Entity) (record : Row) :
  run_state (backend env caller other) (create_op e record) db =
    (fst (exec env caller db (create_query (table_of e) record)),
     {| data := data (snd (exec env caller db (create_query (table_of e) record)));
        error := error (snd (exec env caller db (create_query (table_of e) record))) |}).
Proof.
  destruct e; unfold create_op;
    match goal with |- run_state _ (?f _) _ = _ => unfold f end;
    apply (run_one_request _ _ _ _ _ (fun a => {| data := data a; error := error a |})).
Qed.

Lemma exec_create_query (env : Env) (caller : option string) (db : DB)
    (t : Table) (record : Row) :
  exec env caller db (create_query t record) =
    match insert_row env (schema t) (policies (schema t) caller) (auth_users db)
            (rows_of db t) 0 record with
    | inl e => failed db e
    | inr new => (set_rows db t (rows_of db t ++ [new])%list,
                  {| data := DRow new; error := None |})
    end.
Proof.
  unfold exec, create_query. cbn [q_table q_verb insert_rows].
  destruct (insert_row _ _ _ _ _ _ _); reflexivity.
Qed.




(** X7: a record whose [user_id] is not the caller's identity cannot be
    created, by a signed-in caller or an anonymous one: the call fails
    with the row-level-security error (or, before that, with the error of
    a value its column type refuses) and the database stays as it was. *)
Theorem create_for_another_user_is_rejected
    (e : Entity) (env : Env) (other : Handler) (db : DB)
    (caller : option string) (record : Row) :
  (forall u, caller = Some u -> record !! "user_id" <> Some (VText u)) ->
  run_state (backend env caller other) (create_op e record) db =
    (db, {| data := DNull;
            error := Some (match coerce (schema (table_of e)) record with
                           | inl err => err
                           | inr _ => insufficient_privilege
                           end) |}) /\
  (e <> Budget -> coerce (schema (table_of e)) record = inr record).
Proof.
  intros Hother. split; [|destruct e; try reflexivity; contradiction].
  rewrite run_create_op, exec_create_query. unfold insert_row.
  destruct (coerce (schema (table_of e)) record) as [err|p'] eqn:Hc; [reflexivity|].
  cbv zeta. unfold violation.
  replace (insert_check (policies (schema (table_of e)) caller)
             (p' ∪ defaults env (schema (table_of e)) 0)) with false; [reflexivity|].
  symmetry. cbn [policies insert_check]. unfold owned_by.
  destruct caller as [u|]; [|reflexivity].
  apply bool_decide_eq_false. specialize (Hother u eq_refl).
  replace (owner_column (schema (table_of e))) with "user_id" by (destruct e; reflexivity).
  rewrite lookup_union_l by (destruct e; reflexivity).
  rewrite (coerce_keeps_other _ _ _ _ Hc)
    by (destruct e; simpl; intros Hin; inversion Hin; subst;
        try discriminate; match goal with H : _ ∈ [] |- _ => inversion H end).
  exact Hother.
Qed.

Lemma create_for_another_user_is_rejected_witness :
  run_state (backend env_2000 (Some "u1") (quiet epoch))
    (create_op Budget (new_budget "u2" "gift" 5 "2025-02-01")) db_two_users =
  (db_two_users, {| data := DNull; error := Some insufficient_privilege |}).
Proof.
  apply (create_for_another_user_is_rejected Budget env_2000 (quiet epoch) db_two_users
           (Some "u1") (new_budget "u2" "gift" 5 "2025-02-01")).
  intros u [= <-]. discriminate.
Defined.

(* ===================================================================== *)
(** * Further properties: rows the caller may not write *)
(* ===================================================================== *)

Lemma update_rows_untargeted (env : Env) (sch : Schema) (pol : Policies)
    (users : list string) (values : Row) (target : Row -> bool) (rows : list Row) :
  (forall r, r ∈ rows -> target r = false) ->
  update_rows env sch pol users values target rows = inr (rows, []).
Proof.
  induction rows as [|r rest IH]; intros Hnone; [reflexivity|].
  simpl. rewrite (Hnone r) by left. rewrite IH; [reflexivity|].
  intros x Hx. apply Hnone. right. exact Hx.
Qed.



(* ===================================================================== *)
(** * Further properties: the caller without a session *)
(* ===================================================================== *)

Lemma insert_rows_anonymous (env : Env) (sch : Schema) (users : list string)
    (table : list Row) (i : nat) (payloads table' news : list Row) :
  insert_rows env sch (policies sch None) users table i payloads = inr (table', news) ->
  table' = table /\ news = [].
Proof.
  destruct payloads as [|p ps]; simpl.
  - intros [= <- <-]. auto.
  - destruct (insert_row _ _ _ _ _ _ _) as [e|new] eqn:Hrow; [discriminate|].
    apply insert_row_checked in Hrow. discriminate Hrow.
Qed.

Lemma filter_all {A : Type} (P : A -> Prop) `{!forall x, Decision (P x)} (l : list A) :
  (forall x, x ∈ l -> P x) -> filter P l = l.
Proof.
  induction l as [|a l IH]; intros Hall; [reflexivity|].
  rewrite filter_cons. destruct (decide (P a)) as [_|Hn].
  - f_equal. apply IH. intros x Hx. apply Hall. right. exact Hx.
  - exfalso. apply Hn, Hall. left.
Qed.

Lemma set_rows_id (db : DB) (t t' : Table) :
  rows_of (set_rows db t (rows_of db t)) t' = rows_of db t'.
Proof. simpl. destruct (decide (t' = t)) as [->|]; reflexivity. Qed.

(** One query of a caller without a session returns no row and leaves
    every table as it was. *)
Lemma exec_anonymous (env : Env) (db : DB) (q : Query) :
  data_rows (data (snd (exec env None db q))) = [] /\
  forall t, rows_of (fst (exec env None db q)) t = rows_of db t.
Proof.
  unfold exec.
  set (t := q_table q). set (sch := schema t). set (rows := rows_of db t).
  destruct (q_verb q) as [cols|payloads|values|].
  - (* SELECT *)
    cbn [policies select_using owned_by].
    rewrite (filter_none (fun r : Row => false = true)) by (intros ? ?; discriminate).
    rewrite filter_nil.
    replace (match q_order q with
             | Some (column, ascending) => merge_sort (row_before column ascending) []
             | None => []
             end) with (@nil Row) by (destruct (q_order q) as [[? ?]|]; reflexivity).
    destruct (q_single q); simpl; auto.
  - (* INSERT *)
    destruct (insert_rows _ _ _ _ _ _ _) as [e|[rows' news]] eqn:Hins; [simpl; auto|].
    apply insert_rows_anonymous in Hins as [-> ->].
    destruct (finish_cases q db (set_rows db t rows) []) as [Hdb Hdata]. split.
    + destruct (data_rows _) as [|row l] eqn:Hrows; [reflexivity|].
      destruct (Hdata row) as (? & ? & Hin & _); [left|inversion Hin].
    + intros t'. destruct Hdb as [-> | [-> _]]; [apply set_rows_id|reflexivity].
  - (* UPDATE *)
    destruct (bool_decide (values = ∅)).
    { destruct (finish_cases q db db []) as [Hdb Hdata]. split.
      - destruct (data_rows _) as [|row l] eqn:Hrows; [reflexivity|].
        destruct (Hdata row) as (? & ? & Hin & _); [left|inversion Hin].
      - intros t'. destruct Hdb as [-> | [-> _]]; reflexivity. }
    rewrite update_rows_untargeted by (intros; reflexivity).
    cbn [pk_unique forallb].
    destruct (finish_cases q db (set_rows db t rows) []) as [Hdb Hdata]. split.
    + destruct (data_rows _) as [|row l] eqn:Hrows; [reflexivity|].
      destruct (Hdata row) as (? & ? & Hin & _); [left|inversion Hin].
    + intros t'. destruct Hdb as [-> | [-> _]]; [apply set_rows_id|reflexivity].
  - (* DELETE *)
    cbv zeta. cbn [policies delete_using select_using owned_by andb].
    rewrite (filter_all (fun r : Row => false = false)) by reflexivity.
    rewrite (filter_none (fun r : Row => false = true)) by (intros ? ?; discriminate).
    destruct (finish_cases q db (set_rows db t rows) []) as [Hdb Hdata]. split.
    + destruct (data_rows _) as [|row l] eqn:Hrows; [reflexivity|].
      destruct (Hdata row) as (? & ? & Hin & _); [left|inversion Hin].
    + intros t'. destruct Hdb as [-> | [-> _]]; [apply set_rows_id|reflexivity].
Qed.

Lemma monthly_rows_anonymous (t : Table) (userId cutoff : string) (rows : list Row) :
  monthly_rows t None userId cutoff rows = [].
Proof.
  unfold monthly_rows. cbn [owned_by].
  rewrite (filter_none (fun r : Row => false = true)) by (intros ? ?; discriminate).
  reflexivity.
Qed.

(** X9: without a session, no call of the facade returns a row or
    changes a table: the policies are written for the signed-in role
    only. *)
Theorem anonymous_caller_reads_and_writes_nothing
    (env : Env) (other : Handler) (db : DB) (c : FacadeCall) :
  let result := run_state (backend env None other) (invoke c) db in
  returned_rows (snd result) = [] /\
  forall t, rows_of (fst result) t = rows_of db t.
Proof.
  intros result. subst result.
  destruct c as [? ? ? ?| |? ?| | |u|u v|e u|e v|e i v|e i|u|u];
    try (simpl;
         repeat match goal with
                | |- context [other ?c] => destruct (other c); simpl
                end;
         split; reflexivity);
    try destruct e.
  all: try (run_one;
            match goal with
            | |- context [exec ?en None ?d ?q] =>
                pose proof (exec_anonymous en d q) as [Hrows Hsame];
                destruct (exec en None d q) as [db1 r1]
            end;
            cbn [fst snd returned_rows data] in *; split; [first [exact Hrows|reflexivity]|exact Hsame]).
  cbn [invoke]. unfold getMonthlyData.
  cbn [fmap Prog_fmap run_state mbind mret Prog_bind Prog_ret bind call backend].
  rewrite !exec_monthly_query. cbn [fst snd returned_rows incomeData expenseData data_rows].
  rewrite !monthly_rows_anonymous. split; reflexivity.
Qed.

(* ===================================================================== *)
(** * Further properties: the declared constraints hold of every row *)
(* ===================================================================== *)

Lemma violation_none_constraints (sch : Schema) (chk : Row -> bool) (new : Row) :
  violation sch chk new = None ->
  existsb (fun c => is_null (col new c)) (not_null sch) = false /\ check sch new = true.
Proof.
  unfold violation. destruct (chk new); [|discriminate]. cbn [negb].
  destruct (existsb _ _); [discriminate|].
  destruct (check sch new); [auto|discriminate].
Qed.

Lemma insert_row_ok (env : Env) (t : Table) (pol : Policies) (users : list string)
    (table : list Row) (i : nat) (payload new : Row) :
  insert_row env (schema t) pol users table i payload = inr new -> row_ok t users new.
Proof.
  unfold insert_row. destruct (coerce (schema t) payload) as [e|p']; [discriminate|].
  cbv zeta. destruct (violation _ _ _) eqn:Hv; [discriminate|].
  apply violation_none_constraints in Hv as [Hnull Hcheck].
  destruct (pk_free _ _); [|discriminate]. cbn [negb].
  destruct (forallb _ _) eqn:Hfk; [|discriminate]. cbn [negb].
  intros [= <-]. repeat split; assumption.
Qed.

Lemma insert_rows_ok (env : Env) (t : Table) (pol : Policies) (users : list string)
    (payloads : list Row) :
  forall (table : list Row) (i : nat) (table' news : list Row),
    Forall (row_ok t users) table ->
    insert_rows env (schema t) pol users table i payloads = inr (table', news) ->
    Forall (row_ok t users) table'.
Proof.
  induction payloads as [|p ps IH]; intros table i table' news Hok; simpl.
  - intros [= <- <-]. exact Hok.
  - destruct (insert_row _ _ _ _ _ _ _) as [e|new] eqn:Hrow; [discriminate|].
    destruct (insert_rows _ _ _ _ _ _ _) as [e|[t' ns]] eqn:Hrest; [discriminate|].
    intros [= <- <-]. eapply IH; [|exact Hrest].
    apply Forall_app. split; [exact Hok|].
    constructor; [exact (insert_row_ok _ _ _ _ _ _ _ _ Hrow)|constructor].
Qed.

Lemma update_row_ok (env : Env) (t : Table) (pol : Policies) (users : list string)
    (values old new : Row) :
  row_ok t users old ->
  update_row env (schema t) pol users values old = inr new -> row_ok t users new.
Proof.
  intros (_ & _ & Hold). unfold update_row.
  destruct (coerce (schema t) values) as [e|v']; [discriminate|].
  cbv zeta. destruct (violation _ _ _) eqn:Hv; [discriminate|].
  apply violation_none_constraints in Hv as [Hnull Hcheck].
  match goal with |- context [negb ?b] => destruct b eqn:Hfk end; [|discriminate].
  cbn [negb]. intros [= <-]. split; [exact Hnull|]. split; [exact Hcheck|].
  rewrite forallb_forall in *. intros c Hc.
  specialize (Hfk c Hc). specialize (Hold c Hc).
  apply orb_true_iff in Hfk as [Hsame|Hin]; [|exact Hin].
  apply bool_decide_eq_true in Hsame. rewrite Hsame. exact Hold.
Qed.

Lemma update_rows_ok (env : Env) (t : Table) (pol : Policies) (users : list string)
    (values : Row) (target : Row -> bool) :
  forall rows rows' news : list Row,
    Forall (row_ok t users) rows ->
    update_rows env (schema t) pol users values target rows = inr (rows', news) ->
    Forall (row_ok t users) rows'.
Proof.
  induction rows as [|r rest IH]; intros rows' news Hok; simpl.
  - intros [= <- <-]. constructor.
  - apply Forall_cons in Hok as [Hr Hrest].
    destruct (target r).
    + destruct (update_row _ _ _ _ _ _) as [e|new] eqn:Hrow; [discriminate|].
      destruct (update_rows _ _ _ _ _ _ _) as [e|[rest' ns]] eqn:Hupd; [discriminate|].
      intros [= <- <-]. constructor; [exact (update_row_ok _ _ _ _ _ _ _ Hr Hrow)|eauto].
    + destruct (update_rows _ _ _ _ _ _ _) as [e|[rest' ns]] eqn:Hupd; [discriminate|].
      intros [= <- <-]. constructor; eauto.
Qed.

Lemma finish_db (q : Query) (db db' : DB) (written : list Row) :
  fst (finish q db db' written) = db' \/ fst (finish q db db' written) = db.
Proof. destruct (finish_cases q db db' written) as [[H | [H _]] _]; auto. Qed.

Lemma exec_keeps_constraints (env : Env) (caller : option string) (db : DB) (q : Query) :
  constraints_hold db -> constraints_hold (fst (exec env caller db q)).
Proof.
  intros Hok.
  assert (Hset : forall rows', Forall (row_ok (q_table q) (auth_users db)) rows' ->
                               constraints_hold (set_rows db (q_table q) rows')).
  { intros rows' Hrows t. simpl. destruct (decide (t = q_table q)) as [->|]; auto. }
  unfold exec. destruct (q_verb q) as [cols|payloads|values|].
  - destruct (q_single q); [destruct (map _ _) as [|? [|? ?]]|]; exact Hok.
  - destruct (insert_rows _ _ _ _ _ _ _) as [e|[rows' news]] eqn:Hins; [exact Hok|].
    apply insert_rows_ok in Hins; [|apply Hok].
    destruct (finish_db q db (set_rows db (q_table q) rows') news) as [-> | ->]; auto.
  - destruct (bool_decide (values = ∅)).
    { destruct (finish_db q db db []) as [-> | ->]; exact Hok. }
    destruct (update_rows _ _ _ _ _ _ _) as [e|[rows' news]] eqn:Hupd; [exact Hok|].
    apply update_rows_ok in Hupd; [|apply Hok].
    destruct (pk_unique rows' news); [|exact Hok].
    destruct (finish_db q db (set_rows db (q_table q) rows') news) as [-> | ->]; auto.
  - cbv zeta.
    match goal with
    | |- context [finish q db ?d ?w] => destruct (finish_db q db d w) as [-> | ->]
    end; [|exact Hok].
    apply Hset. apply Forall_forall. intros r Hin.
    apply list_elem_of_filter in Hin as [_ Hin].
    specialize (Hok (q_table q)). rewrite Forall_forall in Hok. auto.
Qed.

Lemma run_state_keeps_constraints {R : Type} (env : Env) (caller : option string)
    (other : Handler) (p : Prog R) :
  forall db, constraints_hold db ->
             constraints_hold (fst (run_state (backend env caller other) p db)).
Proof.
  induction p as [r|c k IH]; intros db Hok; [exact Hok|].
  cbn [run_state].
  destruct (backend env caller other c db) as [db1 a] eqn:Hstep.
  apply IH.
  destruct c; try (injection Hstep as <- _; exact Hok).
  simpl in Hstep.
  pose proof (exec_keeps_constraints env caller db q Hok) as Hq.
  rewrite Hstep in Hq. exact Hq.
Qed.

Lemma budget_row_ok_spelled (users : list string) (r : Row) :
  row_ok budgets users r ->
  (exists q : Q, r !! "budget_limit" = Some (VNum q) /\ (0 < q)%Q) /\
  (exists u : string, r !! "user_id" = Some (VText u) /\ u ∈ users).
Proof.
  intros (Hnull & Hcheck & Hfk). simpl in Hnull, Hcheck, Hfk.
  unfold budget_limit_positive in Hcheck. unfold col in *.
  split.
  - destruct (r !! "budget_limit") as [[|q|s|z]|]; simpl in *;
      try discriminate;
      try (rewrite ?orb_true_r in Hnull; simpl in Hnull;
           repeat (destruct (is_null _) in Hnull; simpl in Hnull); discriminate).
    exists q. split; [reflexivity|].
    apply negb_true_iff in Hcheck. apply Qnot_le_lt. intros Hle.
    apply Qle_bool_iff in Hle. congruence.
  - rewrite andb_true_r in Hfk.
    destruct (r !! "user_id") as [[|q|s|z]|]; simpl in *; try discriminate.
    + repeat (destruct (is_null _) in Hnull; simpl in Hnull); discriminate.
    + exists s. split; [reflexivity|]. apply bool_decide_eq_true in Hfk. exact Hfk.
    + repeat (destruct (is_null _) in Hnull; simpl in Hnull); discriminate.
Qed.

(** X10: whatever call of the facade whichever caller makes, the rows of
    every table still meet what the migration declares; for [budgets]:
    every stored budget has a limit above zero and the id of an existing
    user. *)
Theorem facade_keeps_declared_constraints
    (env : Env) (caller : option string) (other : Handler) (db : DB) (c : FacadeCall) :
  constraints_hold db ->
  let db' := fst (run_state (backend env caller other) (invoke c) db) in
  constraints_hold db' /\
  forall r, r ∈ rows_of db' budgets ->
    (exists q : Q, r !! "budget_limit" = Some (VNum q) /\ (0 < q)%Q) /\
    (exists u : string, r !! "user_id" = Some (VText u) /\ u ∈ auth_users db').
Proof.
  intros Hok db'.
  assert (Hok' : constraints_hold db') by (apply run_state_keeps_constraints, Hok).
  split; [exact Hok'|].
  intros r Hin. apply budget_row_ok_spelled.
  specialize (Hok' budgets). rewrite Forall_forall in Hok'. auto.
Qed.

Lemma db_two_users_constraints : constraints_hold db_two_users.
Proof.
  intros t. destruct t; simpl; repeat constructor.
Qed.

(** Two users, and a budget with a limit of zero that is refused. *)
Lemma facade_keeps_declared_constraints_witness :
  constraints_hold
    (fst (run_state (backend env_2000 (Some "u1") (quiet epoch))
            (invoke (CallCreate Budget (new_budget "u1" "misc" 0 "2025-03-01")))
            db_two_users)).
Proof.
  apply (facade_keeps_declared_constraints env_2000 (Some "u1") (quiet epoch)
           db_two_users (CallCreate Budget (new_budget "u1" "misc" 0 "2025-03-01"))).
  exact db_two_users_constraints.
Defined.

(* ===================================================================== *)
(** * Further properties: the limit of a budget in cents *)
(* ===================================================================== *)

Lemma cents_of_cents (c : Z) : cents (c # 100) = c.
Proof.
  unfold cents. cbv zeta. cbn [Qnum Qden].
  assert (H : (2 * Z.abs (c * 100) + 100) / (2 * 100) = Z.abs c).
  { Z.to_euclidean_division_equations. lia. }
  rewrite H. lia.
Qed.

Lemma cents_within_half (q : Q) :
  2 * Z.abs (Qnum q * 100 - cents q * Z.pos (Qden q)) <= Z.pos (Qden q).
Proof.
  destruct q as [n d]. unfold cents. simpl.
  pose proof (Z.div_mod (2 * Z.abs (n * 100) + Z.pos d) (2 * Z.pos d)) as Hdm.
  pose proof (Z.mod_pos_bound (2 * Z.abs (n * 100) + Z.pos d) (2 * Z.pos d)) as Hb.
  specialize (Hdm ltac:(lia)). specialize (Hb ltac:(lia)).
  set (k := (2 * Z.abs (n * 100) + Z.pos d) / (2 * Z.pos d)) in *.
  set (m := (2 * Z.abs (n * 100) + Z.pos d) mod (2 * Z.pos d)) in *.
  destruct (Z.sgn_spec (n * 100)) as [[Hs ->]|[[Hs ->]|[Hs ->]]]; nia.
Qed.

Lemma cents_below_half (q : Q) : (0 < q)%Q -> (q < 1 # 200)%Q -> cents q = 0.
Proof.
  destruct q as [n d]. unfold Qlt, cents. simpl. intros Hpos Hsmall.
  rewrite Z.div_small by lia. lia.
Qed.

(** X11: the limit of a created budget is the given number rounded to
    cents, at most half a cent away from it; a number with at most two
    decimals is stored as it is. *)
Theorem addBudget_rounds_limit_to_cents
    (env : Env) (other : Handler) (db : DB) (userId category start_date : string)
    (q : Q) :
  userId ∈ auth_users db ->
  (forall r, r ∈ rows_of db budgets -> r !! "id" <> Some (VText (env_uuid env 0))) ->
  0 < cents q < 10 ^ 12 ->
  exists (db' : DB) (row : Row) (stored : Q),
    run_state (backend env (Some userId) other)
      (addBudget (new_budget userId category q start_date)) db =
      (db', {| data := DRow row; error := None |}) /\
    row !! "budget_limit" = Some (VNum stored) /\
    (stored == cents q # 100)%Q /\
    2 * Z.abs (Qnum q * 100 - cents q * Z.pos (Qden q)) <= Z.pos (Qden q) /\
    (forall c : Z, (q == c # 100)%Q -> (stored == q)%Q).
Proof.
  intros Huser Hfresh Hrange. rewrite run_addBudget, insert_row_budget.
  unfold to_numeric_12_2.
  replace (Z.abs (cents q) <? 10 ^ 12) with true by (symmetry; apply Z.ltb_lt; lia).
  cbv zeta.
  assert (Hstored : (Qred (cents q # 100) == cents q # 100)%Q) by apply Qred_correct.
  replace (Qle_bool (Qred (cents q # 100)) 0) with false.
  2:{ symmetry. apply not_true_iff_false. intros Hle. apply Qle_bool_iff in Hle.
      rewrite Hstored in Hle. unfold Qle in Hle. simpl in Hle. lia. }
  set (row := stored_budget (env_uuid env 0) userId category (Qred (cents q # 100))
                start_date (env_now env) (env_now env)).
  rewrite (pk_free_fresh _ row (env_uuid env 0) eq_refl Hfresh).
  rewrite (bool_decide_eq_true_2 _ Huser). cbn [negb].
  eexists _, row, (Qred (cents q # 100)).
  split; [reflexivity|]. split; [reflexivity|]. split; [exact Hstored|].
  split; [apply cents_within_half|].
  intros c Hc. rewrite Hstored, (cents_Qeq q (c # 100) Hc), cents_of_cents.
  symmetry. exact Hc.
Qed.

Lemma addBudget_rounds_limit_to_cents_witness :
  exists (db' : DB) (row : Row) (stored : Q),
    run_state (backend env_2000 (Some "u1") (quiet epoch))
      (addBudget (new_budget "u1" "rent" (2 # 3) "2025-02-01")) db_budget_b1 =
      (db', {| data := DRow row; error := None |}) /\
    row !! "budget_limit" = Some (VNum stored) /\
    (stored == 67 # 100)%Q.
Proof.
  destruct (addBudget_rounds_limit_to_cents env_2000 (quiet epoch) db_budget_b1
              "u1" "rent" "2025-02-01" (2 # 3))
    as (db' & row & stored & Hrun & Hrow & Hstored & _).
  - apply list_elem_of_singleton. reflexivity.
  - intros r Hin. apply list_elem_of_singleton in Hin as ->. discriminate.
  - split; reflexivity.
  - exists db', row, stored. auto.
Defined.

(** X12: a limit above zero but below half a cent is refused like a limit
    of zero: the number is rounded to cents before the check, and the
    database stays as it was. *)
Theorem addBudget_rejects_limit_below_half_cent
    (env : Env) (other : Handler) (db : DB) (userId category start_date : string)
    (q : Q) :
  (0 < q)%Q -> (q < 1 # 200)%Q ->
  run_state (backend env (Some userId) other)
    (addBudget (new_budget userId category q start_date)) db =
  (db, {| data := DNull; error := Some check_violation |}).
Proof.
  intros Hpos Hsmall. rewrite run_addBudget, insert_row_budget.
  unfold to_numeric_12_2. rewrite (cents_below_half q Hpos Hsmall). reflexivity.
Qed.

Lemma addBudget_rejects_limit_below_half_cent_witness :
  run_state (backend env_2000 (Some "u1") (quiet epoch))
    (addBudget (new_budget "u1" "rent" (1 # 250) "2025-02-01")) db_budget_b1 =
  (db_budget_b1, {| data := DNull; error := Some check_violation |}).
Proof.
  apply addBudget_rejects_limit_below_half_cent; reflexivity.
Defined.

(* ===================================================================== *)
(** * Further properties: the export of uniform records *)
(* ===================================================================== *)

Lemma csv_cell_text (row : JsObject) (header : string) :
  csv_cell row header = csv_text (get row header).
Proof. reflexivity. Qed.

Lemma get_own_keys (row : JsObject) :
  NoDup (Object_keys row) -> map (get row) (Object_keys row) = map snd row.
Proof.
  induction row as [|[k v] row IH]; [reflexivity|].
  cbn [Object_keys map fst snd get]. intros Hnd.
  apply NoDup_cons in Hnd as [Hk Hnd].
  rewrite String.eqb_refl. f_equal.
  rewrite <- (IH Hnd). apply map_ext_in. intros k' Hin.
  destruct (String.eqb_spec k k') as [->|_]; [|reflexivity].
  exfalso. apply Hk. apply list_elem_of_In. exact Hin.
Qed.

Lemma csv_row_own_keys (row : JsObject) :
  NoDup (Object_keys row) ->
  csv_row (Object_keys row) row =
    String.concat "," (map (fun kv => csv_text (snd kv)) row).
Proof.
  intros Hnd. rewrite csv_row_cells.
  rewrite (map_ext _ _ (csv_cell_text row)).
  rewrite <- (map_map (get row) csv_text), (get_own_keys row Hnd), map_map.
  reflexivity.
Qed.

Section UniformExport.

Variable h : Handler.

(** X13: when the records all have the fields of the first one, in the
    same order, every data line of the export is the record's own values
    in that order, one cell per field, under the header line of the field
    names. *)
Theorem exportToCSV_uniform_records
    (first : JsObject) (rest : list JsObject) (filename : string) :
  NoDup (Object_keys first) ->
  Forall (fun row => Object_keys row = Object_keys first) rest ->
  exists tail,
    fst (run h (exportToCSV (first :: rest) filename)) =
      NewBlob [String.concat newline
                 (String.concat "," (Object_keys first)
                  :: map (fun row => String.concat "," (map (fun kv => csv_text (snd kv)) row))
                         (first :: rest))]
              "text/csv;charset=utf-8;" :: tail.
Proof.
  intros Hnd Hsame. rewrite exportToCSV_requests. cbv zeta. cbn [fst].
  replace (String.concat newline (csv_lines (Object_keys first) (first :: rest)))
    with (String.concat newline
            (String.concat "," (Object_keys first)
             :: map (fun row => String.concat "," (map (fun kv => csv_text (snd kv)) row))
                    (first :: rest))).
  - eexists. reflexivity.
  - unfold csv_lines. rewrite join_JStr. do 2 f_equal.
    apply map_ext_in. intros row Hin. symmetry.
    assert (Hkeys : Object_keys row = Object_keys first).
    { destruct Hin as [<-|Hin]; [reflexivity|].
      rewrite Forall_forall in Hsame. apply Hsame, list_elem_of_In, Hin. }
    rewrite <- Hkeys. apply csv_row_own_keys. rewrite Hkeys. exact Hnd.
Qed.

End UniformExport.

Lemma exportToCSV_uniform_records_witness :
  exists tail,
    fst (run (quiet epoch)
           (exportToCSV [[("a", JNum 1); ("b", JStr "x,y")]; [("a", JNull); ("b", JStr "z")]]
              "f.csv")) =
    NewBlob ["a,b" ++ newline ++ "1," ++ dquote ++ "x,y" ++ dquote ++ newline ++ ",z"]
            "text/csv;charset=utf-8;" :: tail.
Proof.
  apply (exportToCSV_uniform_records (quiet epoch)
           [("a", JNum 1); ("b", JStr "x,y")] [[("a", JNull); ("b", JStr "z")]] "f.csv").
  - repeat constructor; intros Hin;
      repeat (apply elem_of_cons in Hin as [Hin|Hin]; [discriminate|]); inversion Hin.
  - repeat constructor.
Defined.

Lemma csv_text_blank (v : JsValue) : csv_text (blank v) = csv_text v.
Proof. destruct v; reflexivity. Qed.

Lemma csv_text_get_blank (row : JsObject) (header : string) :
  csv_text (get (blank_record row) header) = csv_text (get row header).
Proof.
  induction row as [|[k v] row IH]; [reflexivity|].
  cbn [blank_record map fst snd get]. destruct (String.eqb k header).
  - apply csv_text_blank.
  - exact IH.
Qed.

Lemma Object_keys_blank (row : JsObject) :
  Object_keys (blank_record row) = Object_keys row.
Proof. unfold Object_keys, blank_record. rewrite map_map. reflexivity. Qed.

(** X14: the export does not tell [null], [undefined] and the empty string
    apart: turning every [null] and [undefined] of the records into an
    empty string gives the same export. *)
Theorem exportToCSV_blanks_null_and_undefined
    (data : list JsObject) (filename : string) :
  exportToCSV (map blank_record data) filename = exportToCSV data filename.
Proof.
  destruct data as [|first rest]; [reflexivity|].
  unfold exportToCSV. cbn [map]. rewrite Object_keys_blank.
  replace (csv_lines (Object_keys first) (blank_record first :: map blank_record rest))
    with (csv_lines (Object_keys first) (first :: rest)); [reflexivity|].
  unfold csv_lines. f_equal.
  change (blank_record first :: map blank_record rest)
    with (map blank_record (first :: rest)).
  rewrite map_map. apply map_ext. intros row.
  rewrite !csv_row_cells. f_equal. apply map_ext. intros header.
  rewrite !csv_cell_text. symmetry. apply csv_text_get_blank.
Qed.

(* ===================================================================== *)
(** * Further properties: primary keys stay distinct *)
(* ===================================================================== *)

Lemma value_eqb_sym (a b : Value) : value_eqb a b = value_eqb b a.
Proof.
  destruct a, b; simpl; try reflexivity.
  - destruct (Qeq_bool q q0) eqn:H1, (Qeq_bool q0 q) eqn:H2; try reflexivity.
    + apply Qeq_bool_iff in H1. symmetry in H1. apply Qeq_bool_iff in H1. congruence.
    + apply Qeq_bool_iff in H2. symmetry in H2. apply Qeq_bool_iff in H2. congruence.
  - apply String.eqb_sym.
  - apply Z.eqb_sym.
Qed.

Lemma value_eqb_refl_r (a b : Value) : value_eqb a b = true -> value_eqb b b = true.
Proof.
  destruct a, b; simpl; try discriminate; intros _.
  - apply Qeq_bool_iff. reflexivity.
  - apply String.eqb_refl.
  - apply Z.eqb_refl.
Qed.

Lemma two_members {A : Type} (l : list A) (x y : A) :
  x ∈ l -> y ∈ l -> x <> y -> (2 <= List.length l)%nat.
Proof.
  intros Hx Hy Hne. destruct l as [|a [|b l]]; simpl; try lia.
  - inversion Hx.
  - apply list_elem_of_singleton in Hx. apply list_elem_of_singleton in Hy. congruence.
Qed.

(** Two different rows of a table with distinct keys do not share a key. *)
Lemma keys_distinct_apart (rows : list Row) (r x : Row) :
  keys_distinct rows -> r ∈ rows -> x ∈ rows -> x <> r -> ~ same_key r x.
Proof.
  intros Hd Hr Hx Hne Hsame. specialize (Hd r Hr).
  assert (2 <= List.length (filter (same_key r) rows))%nat; [|lia].
  apply (two_members _ x r); [| |exact Hne].
  - apply list_elem_of_filter. auto.
  - apply list_elem_of_filter. split; [|exact Hr].
    unfold same_key in *. exact (value_eqb_refl_r _ _ Hsame).
Qed.

Lemma length_filter_filter {A : Type} (P Q : A -> Prop)
    `{!forall x, Decision (P x)} `{!forall x, Decision (Q x)} (l : list A) :
  (List.length (filter P (filter Q l)) <= List.length (filter P l))%nat.
Proof.
  induction l as [|a l IH]; [reflexivity|].
  rewrite (filter_cons Q). destruct (decide (Q a)).
  - rewrite !filter_cons. destruct (decide (P a)); simpl; lia.
  - rewrite filter_cons. destruct (decide (P a)); simpl; lia.
Qed.

Lemma keys_distinct_filter (Q : Row -> Prop) `{!forall r, Decision (Q r)} (rows : list Row) :
  keys_distinct rows -> keys_distinct (filter Q rows).
Proof.
  intros Hd r Hin. apply list_elem_of_filter in Hin as [_ Hin].
  specialize (Hd r Hin). pose proof (length_filter_filter (same_key r) Q rows). lia.
Qed.

Lemma keys_distinct_snoc (rows : list Row) (new : Row) :
  keys_distinct rows -> pk_free rows new = true -> keys_distinct (rows ++ [new]).
Proof.
  intros Hd Hfree. unfold pk_free in Hfree. rewrite forallb_forall in Hfree.
  assert (Hnew : filter (same_key new) rows = []).
  { apply filter_none. intros x Hx Hsame. apply list_elem_of_In in Hx.
    specialize (Hfree x Hx). unfold same_key in Hsame. rewrite Hsame in Hfree.
    discriminate. }
  intros r Hin. rewrite filter_app, length_app.
  apply elem_of_app in Hin as [Hin|Hin].
  - specialize (Hd r Hin).
    rewrite (filter_none (same_key r) [new]); [simpl; lia|].
    intros x Hx Hsame. apply list_elem_of_singleton in Hx. subst x.
    apply list_elem_of_In in Hin. specialize (Hfree r Hin).
    unfold same_key in Hsame. rewrite value_eqb_sym, Hsame in Hfree. discriminate.
  - apply list_elem_of_singleton in Hin. subst r. rewrite Hnew.
    rewrite filter_cons, filter_nil. destruct (decide (same_key new new)); simpl; lia.
Qed.

Lemma insert_row_free (env : Env) (sch : Schema) (pol : Policies) (users : list string)
    (table : list Row) (i : nat) (payload new : Row) :
  insert_row env sch pol users table i payload = inr new -> pk_free table new = true.
Proof.
  unfold insert_row. destruct (coerce sch payload) as [e|p']; [discriminate|].
  cbv zeta. destruct (violation _ _ _); [discriminate|].
  destruct (pk_free table _) eqn:Hfree; [|discriminate]. cbn [negb].
  destruct (forallb _ _); [|discriminate]. intros [= <-]. exact Hfree.
Qed.

Lemma insert_rows_keys (env : Env) (sch : Schema) (pol : Policies) (users : list string)
    (payloads : list Row) :
  forall (table : list Row) (i : nat) (table' news : list Row),
    keys_distinct table ->
    insert_rows env sch pol users table i payloads = inr (table', news) ->
    keys_distinct table'.
Proof.
  induction payloads as [|p ps IH]; intros table i table' news Hd; simpl.
  - intros [= <- <-]. exact Hd.
  - destruct (insert_row _ _ _ _ _ _ _) as [e|new] eqn:Hrow; [discriminate|].
    destruct (insert_rows _ _ _ _ _ _ _) as [e|[t' ns]] eqn:Hrest; [discriminate|].
    intros [= <- <-]. eapply IH; [|exact Hrest].
    apply keys_distinct_snoc; [exact Hd|exact (insert_row_free _ _ _ _ _ _ _ _ Hrow)].
Qed.

(** The rows of an updated table: written, or left alone. *)
Lemma update_rows_members (env : Env) (sch : Schema) (pol : Policies)
    (users : list string) (values : Row) (target : Row -> bool) :
  forall rows rows' news : list Row,
    update_rows env sch pol users values target rows = inr (rows', news) ->
    (forall w, w ∈ news -> w ∈ rows') /\
    (forall r, r ∈ rows' -> r ∈ news \/ (r ∈ rows /\ target r = false)) /\
    forall (P : Row -> Prop) `{!forall r, Decision (P r)},
      (forall r, r ∈ rows -> target r = true -> ~ P r) ->
      (forall w, w ∈ news -> ~ P w) ->
      filter P rows' = filter P rows.
Proof.
  induction rows as [|r rest IH]; intros rows' news; simpl.
  - intros [= <- <-]. split; [|split]; [auto| |reflexivity].
    intros r Hin. inversion Hin.
  - destruct (target r) eqn:Ht.
    + destruct (update_row _ _ _ _ _ _) as [e|new]; [discriminate|].
      destruct (update_rows _ _ _ _ _ _ _) as [e|[rest' ns]] eqn:Hrest; [discriminate|].
      intros [= <- <-]. destruct (IH _ _ eq_refl) as (Hsub & Hmem & Hframe).
      split; [|split].
      * intros w Hw. apply elem_of_cons in Hw as [->|Hw]; [left|right; auto].
      * intros x Hx. apply elem_of_cons in Hx as [->|Hx]; [left; left|].
        destruct (Hmem x Hx) as [Hn|[Hr Hf]]; [left; right; exact Hn|].
        right. split; [right; exact Hr|exact Hf].
      * intros P ? Hold Hnew. rewrite !filter_cons.
        destruct (decide (P new)) as [Hp|_]; [exfalso; apply (Hnew new); [left|exact Hp]|].
        destruct (decide (P r)) as [Hp|_]; [exfalso; apply (Hold r); [left|exact Ht|exact Hp]|].
        apply Hframe.
        -- intros x Hx. apply Hold. right. exact Hx.
        -- intros w Hw. apply Hnew. right. exact Hw.
    + destruct (update_rows _ _ _ _ _ _ _) as [e|[rest' ns]] eqn:Hrest; [discriminate|].
      intros [= <- <-]. destruct (IH _ _ eq_refl) as (Hsub & Hmem & Hframe).
      split; [|split].
      * intros w Hw. right. auto.
      * intros x Hx. apply elem_of_cons in Hx as [->|Hx].
        -- right. split; [left|exact Ht].
        -- destruct (Hmem x Hx) as [Hn|[Hr Hf]]; [left; exact Hn|].
           right. split; [right; exact Hr|exact Hf].
      * intros P ? Hold Hnew. rewrite !filter_cons.
        rewrite Hframe; [reflexivity| |exact Hnew].
        intros x Hx. apply Hold. right. exact Hx.
Qed.

Lemma pk_unique_count (table written : list Row) (w : Row) :
  pk_unique table written = true -> w ∈ written ->
  List.length (filter (same_key w) table) = 1%nat.
Proof.
  unfold pk_unique. rewrite forallb_forall. intros Hall Hin.
  apply list_elem_of_In in Hin. specialize (Hall w Hin).
  apply Nat.eqb_eq in Hall. exact Hall.
Qed.

Lemma update_rows_keys (env : Env) (sch : Schema) (pol : Policies)
    (users : list string) (values : Row) (target : Row -> bool)
    (rows rows' news : list Row) :
  keys_distinct rows ->
  update_rows env sch pol users values target rows = inr (rows', news) ->
  pk_unique rows' news = true ->
  keys_distinct rows'.
Proof.
  intros Hd Hupd Hunique.
  destruct (update_rows_members _ _ _ _ _ _ _ _ _ Hupd) as (Hsub & Hmem & Hframe).
  intros r Hin.
  destruct (decide (r ∈ news)) as [Hnew|Hold].
  { rewrite (pk_unique_count _ _ _ Hunique Hnew). lia. }
  destruct (Hmem r Hin) as [Hn|[Hr Hf]]; [contradiction|].
  rewrite (Hframe (same_key r) _).
  - exact (Hd r Hr).
  - intros o Ho Ht. apply (keys_distinct_apart rows r o Hd Hr Ho). congruence.
  - intros w Hw Hsame.
    pose proof (pk_unique_count _ _ _ Hunique Hw) as Hone.
    assert (2 <= List.length (filter (same_key w) rows'))%nat; [|lia].
    apply (two_members _ w r).
    + apply list_elem_of_filter. split; [|auto].
      unfold same_key in *. rewrite value_eqb_sym in Hsame.
      exact (value_eqb_refl_r _ _ Hsame).
    + apply list_elem_of_filter. split; [|exact Hin].
      unfold same_key in *. rewrite value_eqb_sym. exact Hsame.
    + intros ->. contradiction.
Qed.

Lemma exec_keeps_keys (env : Env) (caller : option string) (db : DB) (q : Query) :
  (forall t, keys_distinct (rows_of db t)) ->
  forall t, keys_distinct (rows_of (fst (exec env caller db q)) t).
Proof.
  intros Hd.
  assert (Hset : forall rows', keys_distinct rows' ->
             forall t, keys_distinct (rows_of (set_rows db (q_table q) rows') t)).
  { intros rows' Hrows t. simpl. destruct (decide (t = q_table q)); auto. }
  unfold exec. destruct (q_verb q) as [cols|payloads|values|].
  - destruct (q_single q); [destruct (map _ _) as [|? [|? ?]]|]; exact Hd.
  - destruct (insert_rows _ _ _ _ _ _ _) as [e|[rows' news]] eqn:Hins; [exact Hd|].
    apply insert_rows_keys in Hins; [|apply Hd].
    destruct (finish_db q db (set_rows db (q_table q) rows') news) as [-> | ->]; auto.
  - destruct (bool_decide (values = ∅)).
    { destruct (finish_db q db db []) as [-> | ->]; exact Hd. }
    destruct (update_rows _ _ _ _ _ _ _) as [e|[rows' news]] eqn:Hupd; [exact Hd|].
    destruct (pk_unique rows' news) eqn:Hunique; [|exact Hd].
    pose proof (update_rows_keys _ _ _ _ _ _ _ _ _ (Hd (q_table q)) Hupd Hunique).
    destruct (finish_db q db (set_rows db (q_table q) rows') news) as [-> | ->]; auto.
  - cbv zeta.
    match goal with
    | |- context [finish q db ?d ?w] => destruct (finish_db q db d w) as [-> | ->]
    end; [|exact Hd].
    apply Hset. apply keys_distinct_filter. apply Hd.
Qed.

(** X15: no call of the facade, whoever makes it, leaves two rows of a
    table with the same primary key: a create whose generated id is
    taken and an update that names the id of another row are refused. *)
Theorem facade_keeps_primary_keys_distinct
    (env : Env) (caller : option string) (other : Handler) (db : DB) (c : FacadeCall) :
  (forall t, keys_distinct (rows_of db t)) ->
  forall t, keys_distinct
              (rows_of (fst (run_state (backend env caller other) (invoke c) db)) t).
Proof.
  generalize (invoke c) as p. intros p. revert db.
  induction p as [r|rq k IH]; intros db Hd; [exact Hd|].
  cbn [run_state].
  destruct (backend env caller other rq db) as [db1 a] eqn:Hstep.
  apply IH.
  destruct rq; try (injection Hstep as <- _; exact Hd).
  simpl in Hstep.
  pose proof (exec_keeps_keys env caller db q Hd) as Hq.
  rewrite Hstep in Hq. exact Hq.
Qed.

Lemma db_two_users_keys : forall t, keys_distinct (rows_of db_two_users t).
Proof.
  assert (H12 : ~ same_key budget_b1 budget_b2) by (unfold same_key; discriminate).
  assert (H21 : ~ same_key budget_b2 budget_b1) by (unfold same_key; discriminate).
  intros t r Hin. destruct t; simpl in *; try (inversion Hin; fail).
  apply elem_of_cons in Hin as [->|Hin]; [|apply list_elem_of_singleton in Hin; subst r].
  - rewrite !filter_cons, filter_nil.
    destruct (decide (same_key budget_b1 budget_b2)); [contradiction|].
    destruct (decide (same_key budget_b1 budget_b1)); simpl; lia.
  - rewrite !filter_cons, filter_nil.
    destruct (decide (same_key budget_b2 budget_b1)); [contradiction|].
    destruct (decide (same_key budget_b2 budget_b2)); simpl; lia.
Qed.

(** Two budgets, and an update of the first that names the id of the
    second. *)
Lemma facade_keeps_primary_keys_distinct_witness :
  keys_distinct
    (rows_of (fst (run_state (backend env_2000 (Some "u1") (quiet epoch))
                     (invoke (CallUpdate Budget "b1" {["id" := VText "b2"]}))
                     db_two_users)) budgets).
Proof.
  apply (facade_keeps_primary_keys_distinct env_2000 (Some "u1") (quiet epoch)
           db_two_users (CallUpdate Budget "b1" {["id" := VText "b2"]})).
  exact db_two_users_keys.
Defined.

(* ===================================================================== *)
(** * Further properties: the cutoff of the monthly data *)
(* ===================================================================== *)

Lemma days_of_civil_of_days (z : Z) :
  let '(y, m, d) := civil_from_days z in
  days_from_civil y m d = z /\ 0 <= m <= 11 /\ 1 <= d <= 31.
Proof.
  unfold civil_from_days, days_from_civil. cbv zeta.
  repeat match goal with
         | |- context [?a <? ?b] => destruct (Z.ltb_spec a b)
         | |- context [?a <=? ?b] => destruct (Z.leb_spec a b)
         end;
  Z.to_euclidean_division_equations; lia.
Qed.

Lemma six_months_back (y m : Z) :
  0 <= m <= 11 ->
  181 <= days_from_civil y m 1 - days_from_civil (y + (m - 6) / 12) ((m - 6) mod 12) 1 <= 184.
Proof.
  intros Hm.
  assert (Hcases : m = 0 \/ m = 1 \/ m = 2 \/ m = 3 \/ m = 4 \/ m = 5 \/
                   m = 6 \/ m = 7 \/ m = 8 \/ m = 9 \/ m = 10 \/ m = 11) by lia.
  unfold days_from_civil.
  repeat destruct Hcases as [->|Hcases]; try subst m;
    match goal with
    | |- context [(?a - 6) / 12] =>
        let q := eval vm_compute in ((a - 6) / 12) in
        let r := eval vm_compute in ((a - 6) mod 12) in
        change ((a - 6) / 12) with q; change ((a - 6) mod 12) with r
    end;
    cbn [Z.leb Z.ltb Z.compare Pos.compare Pos.compare_cont]; cbv zeta;
    Z.to_euclidean_division_equations; lia.
Qed.

Lemma days_from_civil_day (y m d : Z) :
  days_from_civil y m d = days_from_civil y m 1 + d - 1.
Proof. unfold days_from_civil. cbv zeta. lia. Qed.

(** X16: the instant [getMonthlyData] counts from lies between 181 and 184
    days before the clock reading, at the same local time of day,
    whatever the date, for a clock at a fixed offset from UTC. *)
Theorem sixMonthsAgo_181_to_184_days_back (now : JsDate) :
  let ago := setMonth now (getMonth now - 6) in
  181 * msPerDay <= time_value now - time_value ago <= 184 * msPerDay /\
  TimeWithinDay (LocalTime ago) = TimeWithinDay (LocalTime now).
Proof.
  cbv zeta. unfold setMonth, getMonth, MonthFromTime, YearFromTime, DateFromTime,
    MakeDay, MakeDate, LocalTime, TimeWithinDay. cbn [time_value local_tza].
  set (t := time_value now + local_tza now).
  pose proof (days_of_civil_of_days (Day t)) as H.
  destruct (civil_from_days (Day t)) as [[y m] d]. cbn [fst snd].
  destruct H as (Hday & Hm & Hd).
  pose proof (six_months_back y m Hm) as Hspan.
  rewrite days_from_civil_day in Hday.
  set (back := days_from_civil (y + (m - 6) / 12) ((m - 6) mod 12) 1) in *.
  assert (Ht : t = Day t * msPerDay + t mod msPerDay).
  { unfold Day. rewrite Z.mul_comm. apply Z.div_mod. discriminate. }
  split.
  - unfold msPerDay in *. lia.
  - replace ((back + d - 1) * msPerDay + t mod msPerDay - local_tza now + local_tza now)
      with (t mod msPerDay + (back + d - 1) * msPerDay) by lia.
    rewrite Z.mod_add by discriminate. apply Z.mod_mod. discriminate.
Qed.
